(** * steam-locate: discovery of a Steam installation, its libraries and apps

    A shallow embedding of the TypeScript sources

    - [src/steam-path.ts], [src/steam-apps.ts], [src/steam-libraries.ts],
      [src/steam-process.ts], [src/steam-version.ts], [src/errors.ts] and the
      [index.ts] that composes them (the modular revision), and
    - the single-file [src/index.ts] (the single-file revision, which holds
      its own copy of every function),

    followed by the properties of the specification proved against them.

    Conventions.  A JavaScript string is a Rocq [string] whose characters
    stand for UTF-16 code units below 256.  Everything the program asks of
    the operating system (file system, registry and process queries, the
    environment, Node's [path] module) is answered by a [Host]; a [Host] is
    a fixed state of the machine, so a query asked twice has one answer.
    Every function of the program runs in the monad [M], which returns or
    throws and records, in order, the queries that were made. *)

From Stdlib Require Import ZArith Ascii String List Bool Lia.
From stdpp Require Import base list strings gmap.

Local Open Scope string_scope.
Local Open Scope list_scope.

(** ** JavaScript strings and the regular expressions of the sources *)

Module JS.

Definition code (c : ascii) : N := N_of_ascii c.

(** The double quote, which a Rocq string literal cannot hold. *)
Definition dquote : ascii := ascii_of_N 34.
Definition DQ : string := String dquote "".

(** [\s] of a regular expression, [String.prototype.trim] and the prefix
    [parseInt] skips: tab, LF, VT, FF, CR, space and NBSP. *)
Definition isWhiteSpace (c : ascii) : bool :=
  match code c with
  | 9 | 10 | 11 | 12 | 13 | 32 | 160 => true
  | _ => false
  end%N.

(** What [.] of a regular expression refuses: LF and CR. *)
Definition isLineTerminator (c : ascii) : bool :=
  match code c with
  | 10 | 13 => true
  | _ => false
  end%N.

Definition isDigit (c : ascii) : bool :=
  (48 <=? code c)%N && (code c <=? 57)%N.

Definition isQuote (c : ascii) : bool := (code c =? 34)%N.

(** A string in a condition: the empty string is falsy. *)
Definition truthy (s : string) : bool :=
  match s with
  | EmptyString => false
  | String _ _ => true
  end.

(** [x || y] on strings. *)
Definition orElse (x y : string) : string := if truthy x then x else y.

(** [o || d] for an optional string [o]. *)
Definition orDefault (o : option string) (d : string) : string :=
  match o with
  | Some s => orElse s d
  | None => d
  end.

(** An optional string in a condition: [undefined] and [''] are falsy. *)
Definition present (o : option string) : option string :=
  match o with
  | Some s => if truthy s then Some s else None
  | None => None
  end.

Fixpoint startsWith (s p : string) {struct p} : bool :=
  match p, s with
  | EmptyString, _ => true
  | String a p', String b s' => if Ascii.eqb a b then startsWith s' p' else false
  | String _ _, EmptyString => false
  end.

Definition endsWith (s p : string) : bool :=
  startsWith (String.rev s) (String.rev p).

Fixpoint includes (s p : string) : bool :=
  startsWith s p ||
  match s with
  | EmptyString => false
  | String _ s' => includes s' p
  end.

Fixpoint dropWhile (f : ascii -> bool) (s : string) : string :=
  match s with
  | EmptyString => EmptyString
  | String c s' => if f c then dropWhile f s' else s
  end.

Fixpoint takeWhile (f : ascii -> bool) (s : string) : string :=
  match s with
  | EmptyString => EmptyString
  | String c s' => if f c then String c (takeWhile f s') else EmptyString
  end.

Fixpoint dropN (n : nat) (s : string) : string :=
  match n, s with
  | O, _ => s
  | S n', String _ s' => dropN n' s'
  | S _, EmptyString => EmptyString
  end.

Fixpoint takeN (n : nat) (s : string) : string :=
  match n, s with
  | S n', String c s' => String c (takeN n' s')
  | _, _ => EmptyString
  end.

Definition trimStart (s : string) : string := dropWhile isWhiteSpace s.

Definition trim (s : string) : string :=
  String.rev (trimStart (String.rev (trimStart s))).

Definition lowerChar (c : ascii) : ascii :=
  let n := code c in
  if ((65 <=? n) && (n <=? 90) ||
      (192 <=? n) && (n <=? 222) && negb (n =? 215))%N
  then ascii_of_N (n + 32) else c.

Fixpoint toLowerCase (s : string) : string :=
  match s with
  | EmptyString => EmptyString
  | String c s' => String (lowerChar c) (toLowerCase s')
  end.

(** [s.replace(/pat/g, rep)] for a literal, non-empty [pat]: the
    occurrences are taken left to right and do not overlap.  [skip]
    counts the characters of an occurrence still to be passed over. *)
Fixpoint replaceAll_go (pat rep : string) (skip : nat) (s : string) : string :=
  match s with
  | EmptyString => EmptyString
  | String c s' =>
      match skip with
      | S k => replaceAll_go pat rep k s'
      | O =>
          if truthy pat && startsWith s pat
          then rep +:+ replaceAll_go pat rep (String.length pat - 1) s'
          else String c (replaceAll_go pat rep 0 s')
      end
  end.

Definition replaceAll (pat rep s : string) : string := replaceAll_go pat rep 0 s.

(** *** Numbers and dates *)

(** A Number that came out of [parseInt]: [NaN], or the integer the
    digits denote. *)
Inductive number : Type :=
| NaN
| Num (z : Z).

Definition digitVal (c : ascii) : Z := Z.of_N (code c) - 48.

Fixpoint digitsValue (acc : Z) (s : string) : Z :=
  match s with
  | EmptyString => acc
  | String c s' => digitsValue (10 * acc + digitVal c) s'
  end.

(** The digits of [parseInt(_, 10)] once white space and sign are gone:
    the longest prefix of decimal digits, [NaN] when it is empty. *)
Definition parseDigits (s : string) : number :=
  let ds := takeWhile isDigit s in
  if truthy ds then Num (digitsValue 0 ds) else NaN.

Definition negate (n : number) : number :=
  match n with
  | NaN => NaN
  | Num z => Num (- z)
  end.

(** [parseInt(s, 10)]. *)
Definition parseInt (s : string) : number :=
  match trimStart s with
  | String "-" r => negate (parseDigits r)
  | String "+" r => parseDigits r
  | r => parseDigits r
  end.

Definition times (n : number) (k : Z) : number :=
  match n with
  | NaN => NaN
  | Num z => Num (z * k)
  end.

(** A [Date] is its time value in milliseconds; [NaN] is the Invalid
    Date.  [new Date(v)] clips [v] to 8.64e15 milliseconds either side
    of the epoch. *)
Record Date : Type := mkDate { getTime : number }.

Definition newDate (v : number) : Date :=
  match v with
  | NaN => mkDate NaN
  | Num z => if (Z.abs z <=? 8640000000000000)%Z then mkDate (Num z) else mkDate NaN
  end.

(** *** The regular expressions *)

(** The field pattern of the manifests, written here with Q for the
    double quote: [/QkeyQ\s*Q([^Q]+)Q/].  [fieldAt] is one attempt of it
    at the head of [s]: the capture and what follows the match.  After
    the run of white space only a quote can follow, and after the run of non-quotes only a quote, so
    the greedy choice is the only one that can succeed. *)
Definition fieldAt (key : string) (s : string) : option (string * string) :=
  let lit := DQ +:+ key +:+ DQ in
  if startsWith s lit then
    match dropWhile isWhiteSpace (dropN (String.length lit) s) with
    | String q r =>
        if isQuote q then
          let v := takeWhile (fun c => negb (isQuote c)) r in
          match dropN (String.length v) r with
          | String q' r' => if isQuote q' && truthy v then Some (v, r') else None
          | EmptyString => None
          end
        else None
    | EmptyString => None
    end
  else None.

(** [s.match(/QkeyQ\s*Q([^Q]+)Q/)]: the capture of the leftmost match. *)
Fixpoint matchField (key : string) (s : string) : option string :=
  match fieldAt key s with
  | Some (v, _) => Some v
  | None =>
      match s with
      | EmptyString => None
      | String _ s' => matchField key s'
      end
  end.

(** The text of the match that starts at the head of [s] and is followed
    by [rest]. *)
Definition matched (s rest : string) : string :=
  takeN (String.length s - String.length rest) s.

(** [s.match(/QkeyQ\s*Q([^Q]+)Q/g)]: the texts of all matches, left to
    right, each search resuming where the previous match ended. *)
Fixpoint matchAllField_go (key : string) (skip : nat) (s : string) : list string :=
  match s with
  | EmptyString => []
  | String _ s' =>
      match skip with
      | S k => matchAllField_go key k s'
      | O =>
          match fieldAt key s with
          | Some (_, rest) =>
              matched s rest
                :: matchAllField_go key (String.length s - String.length rest - 1) s'
          | None => matchAllField_go key 0 s'
          end
      end
  end.

(** [null] when nothing matches. *)
Definition matchAllField (key : string) (s : string) : option (list string) :=
  match matchAllField_go key 0 s with
  | [] => None
  | ms => Some ms
  end.

(** The captures of all matches of the field pattern, left to right. *)
Fixpoint fieldValues_go (key : string) (skip : nat) (s : string) : list string :=
  match s with
  | EmptyString => []
  | String _ s' =>
      match skip with
      | S k => fieldValues_go key k s'
      | O =>
          match fieldAt key s with
          | Some (v, rest) =>
              v :: fieldValues_go key (String.length s - String.length rest - 1) s'
          | None => fieldValues_go key 0 s'
          end
      end
  end.

Definition fieldValues (key : string) (s : string) : list string :=
  fieldValues_go key 0 s.

(** The last character of [s] that [.] accepts. *)
Fixpoint lastDot (s : string) : option ascii :=
  match s with
  | EmptyString => None
  | String c s' =>
      match lastDot s' with
      | Some d => Some d
      | None => if isLineTerminator c then None else Some c
      end
  end.

(** [\s+(.+)] at the head of [s].  The white space is taken greedily; when
    a character follows the run, the capture starts there and runs to the
    end of the line.  When the run ends the string, the matcher gives
    white space back one character at a time, keeping at least one, until
    the character given back is one [.] accepts: that character is the
    capture. *)
Definition spacesThenRest (s : string) : option string :=
  match s with
  | EmptyString => None
  | String c w =>
      if isWhiteSpace c then
        match dropWhile isWhiteSpace w with
        | EmptyString =>
            match lastDot w with
            | Some d => Some (String d "")
            | None => None
            end
        | r => Some (takeWhile (fun c => negb (isLineTerminator c)) r)
        end
      else None
  end.

(** One attempt of [(?:SteamPath|InstallPath)\s+REG_SZ\s+(.+)] at the
    head of [s]. *)
Definition registryAt (s : string) : option string :=
  let after :=
    if startsWith s "SteamPath" then Some (dropN 9 s)
    else if startsWith s "InstallPath" then Some (dropN 11 s)
    else None in
  match after with
  | Some (String c r1) =>
      if isWhiteSpace c then
        let r2 := dropWhile isWhiteSpace r1 in
        if startsWith r2 "REG_SZ" then spacesThenRest (dropN 6 r2) else None
      else None
  | _ => None
  end.

(** [s.match(/(?:SteamPath|InstallPath)\s+REG_SZ\s+(.+)/)]. *)
Fixpoint matchRegistry (s : string) : option string :=
  match registryAt s with
  | Some v => Some v
  | None =>
      match s with
      | EmptyString => None
      | String _ s' => matchRegistry s'
      end
  end.

(** One attempt of [appmanifest_(\d+)\.acf] at the head of [s]. *)
Definition manifestNameAt (s : string) : option string :=
  if startsWith s "appmanifest_" then
    let r := dropN 12 s in
    let ds := takeWhile isDigit r in
    if truthy ds && startsWith (dropN (String.length ds) r) ".acf"
    then Some ds else None
  else None.

(** [file.match(/appmanifest_(\d+)\.acf/)]. *)
Fixpoint matchManifestName (s : string) : option string :=
  match manifestNameAt s with
  | Some v => Some v
  | None =>
      match s with
      | EmptyString => None
      | String _ s' => matchManifestName s'
      end
  end.

End JS.

(** ** The host and the monad of the program *)

(** What a call of the operating system answers: a value, or the message
    of the [Error] it throws. *)
Inductive sys (A : Type) : Type :=
| SysOk (a : A)
| SysErr (message : string).
Arguments SysOk {A} a.
Arguments SysErr {A} message.

(** One state of the machine the program runs on. *)
Record Host : Type := mkHost {
  os_platform : string;                         (* os.platform() *)
  os_homedir : string;                          (* os.homedir() *)
  process_env : string -> option string;        (* process.env.NAME *)
  fs_exists : string -> bool;                   (* fs.existsSync *)
  fs_readFile : string -> sys string;           (* fs.readFileSync(_, 'utf8') *)
  fs_readdir : string -> sys (list string);     (* fs.readdirSync *)
  child_exec : string -> sys string;            (* child_process.execSync *)
  path_join : list string -> string;            (* path.join *)
  path_normalize : string -> string;            (* path.normalize *)
  path_resolve : list string -> string          (* path.resolve *)
}.

(** [src/errors.ts].  [SteamNotFoundError] keeps its message and the
    optional platform; [SteamAppNotFoundError] keeps its message only. *)
Inductive Exn : Type :=
| SteamNotFoundError (message : string) (platform : option string)
| SteamAppNotFoundError (message : string)
| Error (message : string).

Definition message (e : Exn) : string :=
  match e with
  | SteamNotFoundError m _ => m
  | SteamAppNotFoundError m => m
  | Error m => m
  end.

(** [new SteamNotFoundError(message, platform)]. *)
Definition newSteamNotFoundError (msg : option string) (platform : option string) : Exn :=
  SteamNotFoundError (default "Steam installation not found" msg) platform.

(** [new SteamAppNotFoundError(appId, message)]: the identifier reaches
    the error through the default message only. *)
Definition newSteamAppNotFoundError (appId : string) (msg : option string) : Exn :=
  SteamAppNotFoundError
    (default ("Steam app with ID " +:+ appId +:+ " not found") (JS.present msg)).

Definition isSteamNotFoundError (e : Exn) : bool :=
  match e with SteamNotFoundError _ _ => true | _ => false end.

Definition isSteamAppNotFoundError (e : Exn) : bool :=
  match e with SteamAppNotFoundError _ => true | _ => false end.

(** The queries a run makes of the host. *)
Inductive Event : Type :=
| Probe (path : string)        (* existsSync *)
| ReadFile (path : string)     (* readFileSync *)
| ReadDir (path : string)      (* readdirSync *)
| Exec (command : string).     (* execSync *)

Inductive outcome (A : Type) : Type :=
| Returns (a : A)
| Throws (e : Exn).
Arguments Returns {A} a.
Arguments Throws {A} e.

(** A run: how it ends, and the queries it made, first to last. *)
Definition M (A : Type) : Type := (outcome A * list Event)%type.

Definition ret {A} (a : A) : M A := (Returns a, []).
Definition throw {A} (e : Exn) : M A := (Throws e, []).

Definition bind {A B} (m : M A) (k : A -> M B) : M B :=
  match m with
  | (Returns a, t) => let '(r, t') := k a in (r, t ++ t')
  | (Throws e, t) => (Throws e, t)
  end.

(** [try { m } catch (e) { handler e }]. *)
Definition try_catch {A} (m : M A) (handler : Exn -> M A) : M A :=
  match m with
  | (Returns a, t) => (Returns a, t)
  | (Throws e, t) => let '(r, t') := handler e in (r, t ++ t')
  end.

Definition result {A} (m : M A) : outcome A := fst m.
Definition trace {A} (m : M A) : list Event := snd m.

Declare Scope prog_scope.
Delimit Scope prog_scope with prog.
Notation "x <- m ;; k" := (bind m (fun x => k))
  (at level 100, m at next level, right associativity) : prog_scope.
Local Open Scope prog_scope.

Definition ask {A} (e : Event) (answer : sys A) : M A :=
  match answer with
  | SysOk a => (Returns a, [e])
  | SysErr msg => (Throws (Error msg), [e])
  end.

Section Queries.
Variable h : Host.

Definition existsSync (p : string) : M bool := (Returns (fs_exists h p), [Probe p]).
Definition readFileSync (p : string) : M string := ask (ReadFile p) (fs_readFile h p).
Definition readdirSync (p : string) : M (list string) := ask (ReadDir p) (fs_readdir h p).
Definition execSync (cmd : string) : M string := ask (Exec cmd) (child_exec h cmd).

(** [existsSync(a) && existsSync(b)]: [b] is probed only when [a] exists. *)
Definition existsBoth (a b : string) : M bool :=
  ea <- existsSync a ;;
  if ea then existsSync b else ret false.
End Queries.

(** *** Promises

    Every executor of the sources runs to its end when the promise is
    made, so a promise is modelled settled: awaiting it returns the value
    it was resolved with or throws the error it was rejected with. *)
Inductive settlement (A : Type) : Type :=
| Resolve (a : A)
| Reject (e : Exn).
Arguments Resolve {A} a.
Arguments Reject {A} e.

Definition Promise (A : Type) : Type := M A.

(** [new Promise(executor)]: an executor that throws rejects the promise. *)
Definition newPromise {A} (executor : M (settlement A)) : Promise A :=
  match executor with
  | (Returns (Resolve a), t) => (Returns a, t)
  | (Returns (Reject e), t) => (Throws e, t)
  | (Throws e, t) => (Throws e, t)
  end.

Definition await {A} (p : Promise A) : M A := p.

(** [p.catch(onRejected)]. *)
Definition catch {A} (p : Promise A) (onRejected : Exn -> M A) : Promise A :=
  try_catch p onRejected.

(** ** [src/steam-path.ts]: the root resolver *)

(** [findSteamPathWindows] reads the same in both revisions but for two
    expressions: what [replace] is applied to the registry value, and
    whether a path is passed through [resolve] before [normalize].  The
    body is written once over these two. *)
Section Windows.
Variable h : Host.
Variable unescape : string -> string.
Variable canonical : string -> string.

Definition registryQuery : string :=
  "reg query " +:+ JS.DQ +:+ "HKCU\Software\Valve\Steam" +:+ JS.DQ
    +:+ " /v SteamPath 2>nul || reg query "
    +:+ JS.DQ +:+ "HKLM\Software\Valve\Steam" +:+ JS.DQ
    +:+ " /v InstallPath 2>nul".

Definition steamExe (dir : string) : string := path_resolve h [dir; "steam.exe"].

(** [existsSync(p) && existsSync(resolve(p, 'steam.exe'))]. *)
Definition hasLauncher (dir : string) : M bool := existsBoth h dir (steamExe dir).

(** The [try] block: [Some p] when it returns [p] from the function,
    [None] when control leaves the block, by its end or by [catch]. *)
Definition registryLookup : M (option string) :=
  try_catch
    (regOutput <- execSync h registryQuery ;;
     match JS.present (JS.matchRegistry regOutput) with
     | Some v =>
         let steamPath := canonical (unescape (JS.trim v)) in
         ok <- hasLauncher steamPath ;;
         ret (if ok then Some steamPath else None)
     | None => ret None
     end)
    (fun _ => ret None).

Definition commonPathsWindows : list string :=
  [ "C:\Program Files (x86)\Steam";
    "C:\Program Files\Steam";
    path_resolve h [JS.orDefault (process_env h "LOCALAPPDATA") ""; "Steam"];
    path_resolve h [JS.orDefault (process_env h "APPDATA") ""; "Steam"] ].

Fixpoint probeCommonPaths (paths : list string) : M string :=
  match paths with
  | [] => throw (newSteamNotFoundError
                   (Some "Could not locate Steam installation on Windows") None)
  | p :: rest =>
      let path := canonical p in
      ok <- hasLauncher path ;;
      if ok then ret path else probeCommonPaths rest
  end.

Definition findSteamPathWindows_body : M string :=
  found <- registryLookup ;;
  match found with
  | Some steamPath => ret steamPath
  | None => probeCommonPaths commonPathsWindows
  end.
End Windows.

Module SteamPath.
Section WithHost.
Variable h : Host.

(** [.replace(/\\/g, '\\')] and [normalize(_)]. *)
Definition findSteamPathWindows : M string :=
  findSteamPathWindows_body h (JS.replaceAll "\" "\") (path_normalize h).

Definition findSteamPathMacOS : M string :=
  let steamPath := path_resolve h [os_homedir h; "Library/Application Support/Steam"] in
  e <- existsSync h steamPath ;;
  if e then ret steamPath
  else throw (newSteamNotFoundError
                (Some "Could not locate Steam installation on macOS") None).

Definition candidatePathsLinux : list string :=
  let home := os_homedir h in
  let snapDir :=
    match JS.present (process_env h "SNAP_USER_DATA") with
    | Some d => path_resolve h [d]
    | None => path_resolve h [home; "snap"]
    end in
  [ path_resolve h [home; ".var/app/com.valvesoftware.Steam/.local/share/Steam"];
    path_resolve h [home; ".var/app/com.valvesoftware.Steam/.steam/steam"];
    path_resolve h [home; ".var/app/com.valvesoftware.Steam/.steam/root"];
    path_resolve h [home; ".local/share/Steam"];
    path_resolve h [home; ".steam/steam"];
    path_resolve h [home; ".steam/root"];
    path_resolve h [home; ".steam/debian-installation"];
    path_resolve h [snapDir; "steam/common/.local/share/Steam"];
    path_resolve h [snapDir; "steam/common/.steam/steam"];
    path_resolve h [snapDir; "steam/common/.steam/root"] ].

(** The loop over [candidatePaths]; [seen] is the [Set] of the source,
    which gains an element only on the iteration that returns. *)
Fixpoint probeCandidates (seen : gset string) (paths : list string) : M string :=
  match paths with
  | [] => throw (newSteamNotFoundError
                   (Some "Could not locate Steam installation on Linux") None)
  | path :: rest =>
      if decide (path ∈ seen) then probeCandidates seen rest
      else
        e <- existsSync h path ;;
        if e then ret path else probeCandidates seen rest
  end.

Definition findSteamPathLinux : M string := probeCandidates ∅ candidatePathsLinux.

Definition findSteamPathSync : M string :=
  let currentPlatform := os_platform h in
  if String.eqb currentPlatform "win32" then findSteamPathWindows
  else if String.eqb currentPlatform "darwin" then findSteamPathMacOS
  else if String.eqb currentPlatform "linux" then findSteamPathLinux
  else throw (newSteamNotFoundError
                (Some ("Unsupported platform: " +:+ currentPlatform))
                (Some currentPlatform)).
End WithHost.
End SteamPath.

(** The root resolver of the single-file [src/index.ts]. *)
Module SingleFile.
Section WithHost.
Variable h : Host.

(** [.replace(/\\\\/g, '\\')] and [normalize(resolve(_))]. *)
Definition findSteamPathWindows : M string :=
  findSteamPathWindows_body h (JS.replaceAll "\\" "\")
    (fun p => path_normalize h (path_resolve h [p])).

Definition commonPathsMacOS : list string :=
  [ "/Applications/Steam.app/Contents/MacOS";
    path_resolve h [os_homedir h; "Applications/Steam.app/Contents/MacOS"];
    "/usr/local/bin/steam";
    "/opt/homebrew/bin/steam" ].

Fixpoint probeMacOS (paths : list string) : M string :=
  match paths with
  | [] => throw (newSteamNotFoundError
                   (Some "Could not locate Steam installation on macOS") None)
  | path :: rest =>
      e <- existsSync h path ;;
      if e then
        if JS.includes path "Steam.app" then
          e1 <- existsSync h (path_join h [path; "Steam"]) ;;
          if e1 then ret path else probeMacOS rest
        else
          e2 <- existsSync h path ;;
          if e2 then ret path else probeMacOS rest
      else probeMacOS rest
  end.

Definition findSteamPathMacOS : M string := probeMacOS commonPathsMacOS.

Definition commonPathsLinux : list string :=
  [ "/usr/bin/steam";
    "/usr/local/bin/steam";
    "/opt/steam";
    path_resolve h [os_homedir h; ".steam/steam"];
    path_resolve h [os_homedir h; ".local/share/Steam"];
    "/usr/games/steam";
    "/snap/steam/current" ].

(** The [try] block around [which steam]: [Some p] when it returns [p]
    from the function. *)
Definition whichSteam : M (option string) :=
  try_catch
    (whichOutput <- execSync h "which steam" ;;
     let steamPath := JS.trim whichOutput in
     if JS.truthy steamPath then
       e <- existsSync h steamPath ;;
       ret (if e then Some steamPath else None)
     else ret None)
    (fun _ => ret None).

Fixpoint probeLinux (paths : list string) : M string :=
  match paths with
  | [] =>
      found <- whichSteam ;;
      match found with
      | Some steamPath => ret steamPath
      | None => throw (newSteamNotFoundError
                         (Some "Could not locate Steam installation on Linux") None)
      end
  | path :: rest =>
      e <- existsSync h path ;;
      if e then ret path else probeLinux rest
  end.

Definition findSteamPathLinux : M string := probeLinux commonPathsLinux.

Definition findSteamPathSync : M string :=
  let currentPlatform := os_platform h in
  if String.eqb currentPlatform "win32" then findSteamPathWindows
  else if String.eqb currentPlatform "darwin" then findSteamPathMacOS
  else if String.eqb currentPlatform "linux" then findSteamPathLinux
  else throw (newSteamNotFoundError
                (Some ("Unsupported platform: " +:+ currentPlatform))
                (Some currentPlatform)).
End WithHost.
End SingleFile.

(** ** [src/steam-libraries.ts]: the library folders

    [getLibraryFoldersSync] is the same text in both revisions. *)
Module SteamLibraries.
Section WithHost.
Variable h : Host.

(** The body of the loop over [pathMatches] for one match [m]. *)
Definition addLibraryPath (libraryFolders : list string) (m : string) : M (list string) :=
  match JS.present (JS.matchField "path" m) with
  | Some v =>
      let libraryPath :=
        path_normalize h (path_join h [JS.replaceAll "\\" "\" v; "steamapps"]) in
      e <- existsSync h libraryPath ;;
      if e && negb (bool_decide (libraryPath ∈ libraryFolders))
      then ret (libraryFolders ++ [libraryPath])
      else ret libraryFolders
  | None => ret libraryFolders
  end.

Fixpoint addLibraryPaths (libraryFolders : list string) (pathMatches : list string)
  : M (list string) :=
  match pathMatches with
  | [] => ret libraryFolders
  | m :: rest =>
      libraryFolders' <- addLibraryPath libraryFolders m ;;
      addLibraryPaths libraryFolders' rest
  end.

Definition getLibraryFoldersSync (steamPath : string) : M (list string) :=
  try_catch
    (let mainAppsFolder := path_join h [steamPath; "steamapps"] in
     e <- existsSync h mainAppsFolder ;;
     let libraryFolders := if e then [path_normalize h mainAppsFolder] else [] in
     let libraryFoldersVdf := path_join h [steamPath; "steamapps"; "libraryfolders.vdf"] in
     ev <- existsSync h libraryFoldersVdf ;;
     if ev then
       try_catch
         (content <- readFileSync h libraryFoldersVdf ;;
          match JS.matchAllField "path" content with
          | Some pathMatches => addLibraryPaths libraryFolders pathMatches
          | None => ret libraryFolders
          end)
         (fun _ => ret libraryFolders)
     else ret libraryFolders)
    (fun _ => ret []).
End WithHost.
End SteamLibraries.

(** ** [src/steam-apps.ts]: one app, and the inventory *)

(** [src/types.ts]. *)
Record SteamApp : Type := mkSteamApp {
  appId : string;
  name : option string;
  installDir : option string;
  sizeOnDisk : option JS.number;
  isInstalled : bool;
  lastUpdated : option JS.Date
}.

Record SteamLocation : Type := mkSteamLocation {
  path : string;
  isRunning : bool;
  platform : string;
  version : option string;
  libraryFolders : list string
}.

Module SteamApps.
Section WithHost.
Variable h : Host.

Definition manifestPath (libraryFolder appId : string) : string :=
  path_join h [libraryFolder; "appmanifest_" +:+ appId +:+ ".acf"].

(** What is built from the text of a manifest found in [libraryFolder]. *)
Definition parseManifest (libraryFolder appId manifestContent : string) : M SteamApp :=
  let nameMatch := JS.matchField "name" manifestContent in
  let installDirMatch := JS.matchField "installdir" manifestContent in
  let sizeMatch := JS.matchField "SizeOnDisk" manifestContent in
  let lastUpdatedMatch := JS.matchField "LastUpdated" manifestContent in
  let installDir :=
    match JS.present installDirMatch with
    | Some d => Some (path_join h [libraryFolder; "common"; d])
    | None => None
    end in
  isInstalled <-
    match JS.present installDir with
    | Some dir => existsSync h dir
    | None => ret false
    end ;;
  ret {| appId := appId;
         name := JS.present nameMatch;
         installDir := if isInstalled then installDir else None;
         sizeOnDisk :=
           match JS.present sizeMatch with
           | Some v => Some (JS.parseInt v)
           | None => None
           end;
         isInstalled := isInstalled;
         lastUpdated :=
           match JS.present lastUpdatedMatch with
           | Some v => Some (JS.newDate (JS.times (JS.parseInt v) 1000))
           | None => None
           end |}.

(** The [try] block for one folder: [Some app] when it returns [app]
    from the function, [None] when the loop goes on. *)
Definition lookIn (appId libraryFolder : string) : M (option SteamApp) :=
  try_catch
    (let appManifestPath := manifestPath libraryFolder appId in
     e <- existsSync h appManifestPath ;;
     if e then
       manifestContent <- readFileSync h appManifestPath ;;
       app <- parseManifest libraryFolder appId manifestContent ;;
       ret (Some app)
     else ret None)
    (fun _ => ret None).

Fixpoint findSteamAppInLibrariesSync (appId : string) (libraryFolders : list string)
    (_steamPath : string) : M SteamApp :=
  match libraryFolders with
  | [] => throw (newSteamAppNotFoundError appId None)
  | libraryFolder :: rest =>
      found <- lookIn appId libraryFolder ;;
      match found with
      | Some app => ret app
      | None => findSteamAppInLibrariesSync appId rest _steamPath
      end
  end.

Definition findSteamAppInLibraries (appId : string) (libraryFolders : list string)
    (steamPath : string) : M SteamApp :=
  findSteamAppInLibrariesSync appId libraryFolders steamPath.

(** The key under which the inventory remembers an app. *)
Definition dedupKey (isWin : bool) (id dir : string) : string :=
  let key := id +:+ "|" +:+ path_normalize h dir in
  if isWin then JS.toLowerCase key else key.

(** The two variables the loops of the inventory update. *)
Definition inventory : Type := (list SteamApp * gset string)%type.

(** The body of the inner loop for one directory entry. *)
Definition visitFile (isWin : bool) (libraryFolder : string) (st : inventory)
    (file : string) : M inventory :=
  if JS.startsWith file "appmanifest_" && JS.endsWith file ".acf" then
    try_catch
      (match JS.present (JS.matchManifestName file) with
       | Some id =>
           app <- findSteamAppInLibrariesSync id [libraryFolder] "" ;;
           match isInstalled app, JS.present (installDir app) with
           | true, Some dir =>
               let key := dedupKey isWin (appId app) dir in
               if decide (key ∈ st.2) then ret st
               else ret (st.1 ++ [app], {[key]} ∪ st.2)
           | _, _ => ret st
           end
       | None => ret st
       end)
      (fun _ => ret st)
  else ret st.

Fixpoint visitFiles (isWin : bool) (libraryFolder : string) (st : inventory)
    (files : list string) : M inventory :=
  match files with
  | [] => ret st
  | file :: rest =>
      st' <- visitFile isWin libraryFolder st file ;;
      visitFiles isWin libraryFolder st' rest
  end.

(** The body of the outer loop for one library folder. *)
Definition visitFolder (isWin : bool) (st : inventory) (libraryFolder : string)
  : M inventory :=
  try_catch
    (files <- readdirSync h libraryFolder ;;
     visitFiles isWin libraryFolder st files)
    (fun _ => ret st).

Fixpoint visitFolders (isWin : bool) (st : inventory) (libraryFolders : list string)
  : M inventory :=
  match libraryFolders with
  | [] => ret st
  | libraryFolder :: rest =>
      st' <- visitFolder isWin st libraryFolder ;;
      visitFolders isWin st' rest
  end.

Definition getInstalledSteamAppsFromLibrariesSync (libraryFolders : list string)
  : M (list SteamApp) :=
  let isWin := String.eqb (os_platform h) "win32" in
  st <- visitFolders isWin ([], ∅) libraryFolders ;;
  ret st.1.
End WithHost.
End SteamApps.

(** The inventory of the single-file [src/index.ts]: it keeps no set of
    keys. *)
Module SingleFileApps.
Section WithHost.
Variable h : Host.

Definition visitFile (libraryFolder : string) (apps : list SteamApp) (file : string)
  : M (list SteamApp) :=
  if JS.startsWith file "appmanifest_" && JS.endsWith file ".acf" then
    try_catch
      (match JS.present (JS.matchManifestName file) with
       | Some id =>
           app <- SteamApps.findSteamAppInLibrariesSync h id [libraryFolder] "" ;;
           if isInstalled app then ret (apps ++ [app]) else ret apps
       | None => ret apps
       end)
      (fun _ => ret apps)
  else ret apps.

Fixpoint visitFiles (libraryFolder : string) (apps : list SteamApp) (files : list string)
  : M (list SteamApp) :=
  match files with
  | [] => ret apps
  | file :: rest =>
      apps' <- visitFile libraryFolder apps file ;;
      visitFiles libraryFolder apps' rest
  end.

Definition visitFolder (apps : list SteamApp) (libraryFolder : string) : M (list SteamApp) :=
  try_catch
    (files <- readdirSync h libraryFolder ;;
     visitFiles libraryFolder apps files)
    (fun _ => ret apps).

Fixpoint visitFolders (apps : list SteamApp) (libraryFolders : list string)
  : M (list SteamApp) :=
  match libraryFolders with
  | [] => ret apps
  | libraryFolder :: rest =>
      apps' <- visitFolder apps libraryFolder ;;
      visitFolders apps' rest
  end.

Definition getInstalledSteamAppsFromLibrariesSync (libraryFolders : list string)
  : M (list SteamApp) :=
  visitFolders [] libraryFolders.
End WithHost.
End SingleFileApps.

(** ** [src/steam-process.ts] and [src/steam-version.ts] *)

Module SteamProcess.
Section WithHost.
Variable h : Host.

Definition processQuery (currentPlatform : string) : option string :=
  if String.eqb currentPlatform "win32"
  then Some ("tasklist /FI " +:+ JS.DQ +:+ "IMAGENAME eq steam.exe" +:+ JS.DQ
               +:+ " /FO CSV /NH")
  else if String.eqb currentPlatform "darwin"
  then Some ("pgrep -f " +:+ JS.DQ +:+ "Steam.app" +:+ JS.DQ)
  else if String.eqb currentPlatform "linux" then Some "pgrep -f steam"
  else None.

Definition isSteamRunningSync : M bool :=
  try_catch
    (let currentPlatform := os_platform h in
     match processQuery currentPlatform with
     | None => ret false
     | Some command =>
         output <- execSync h command ;;
         if String.eqb currentPlatform "win32"
         then ret (JS.includes output "steam.exe")
         else ret (JS.truthy (JS.trim output))
     end)
    (fun _ => ret false).
End WithHost.
End SteamProcess.

Module SteamVersion.
Section WithHost.
Variable h : Host.

Definition versionQuery (steamExePath : string) : string :=
  "powershell -Command " +:+ JS.DQ +:+ "(Get-Item '" +:+ steamExePath
    +:+ "').VersionInfo.FileVersion" +:+ JS.DQ.

(** The block for [win32]: [Some v] when it returns [v] from the
    function. *)
Definition fileVersion (steamPath : string) : M (option string) :=
  if String.eqb (os_platform h) "win32" then
    let steamExePath := path_join h [steamPath; "steam.exe"] in
    e <- existsSync h steamExePath ;;
    if e then
      try_catch
        (output <- execSync h (versionQuery steamExePath) ;;
         ret (Some (JS.trim output)))
        (fun _ => ret None)
    else ret None
  else ret None.

Definition versionPaths (steamPath : string) : list string :=
  [ path_join h [steamPath; "package"; "steam_client_win32"];
    path_join h [steamPath; "steam_client_win32"];
    path_join h [steamPath; "version.txt"];
    path_join h [steamPath; "package"; "version.txt"] ].

Fixpoint readVersionFiles (paths : list string) : M (option string) :=
  match paths with
  | [] => ret None
  | versionPath :: rest =>
      e <- existsSync h versionPath ;;
      if e then
        found <- try_catch
                   (raw <- readFileSync h versionPath ;;
                    let content := JS.trim raw in
                    ret (if JS.truthy content then Some content else None))
                   (fun _ => ret None) ;;
        match found with
        | Some content => ret (Some content)
        | None => readVersionFiles rest
        end
      else readVersionFiles rest
  end.

Definition getSteamVersionSync (steamPath : string) : M (option string) :=
  try_catch
    (v <- fileVersion steamPath ;;
     match v with
     | Some out => ret (Some out)
     | None => readVersionFiles (versionPaths steamPath)
     end)
    (fun _ => ret None).
End WithHost.
End SteamVersion.

(** ** The promise-returning counterparts

    [findSteamPath] of [steam-path.ts], [getLibraryFolders] of
    [steam-libraries.ts], [getInstalledSteamAppsFromLibraries] of
    [steam-apps.ts], [isSteamRunning] of [steam-process.ts] and
    [getSteamVersion] of [steam-version.ts]. *)
Module Async.
Section WithHost.
Variable h : Host.

Definition findSteamPath (findSteamPathSync : M string) : Promise string :=
  newPromise
    (try_catch
       (path <- findSteamPathSync ;; ret (Resolve path))
       (fun error => ret (Reject error))).

Definition getLibraryFolders (steamPath : string) : Promise (list string) :=
  newPromise
    (try_catch
       (folders <- SteamLibraries.getLibraryFoldersSync h steamPath ;;
        ret (Resolve folders))
       (fun _ => ret (Resolve []))).

Definition getInstalledSteamAppsFromLibraries
    (getInstalledSteamAppsFromLibrariesSync : list string -> M (list SteamApp))
    (libraryFolders : list string) : Promise (list SteamApp) :=
  newPromise
    (try_catch
       (apps <- getInstalledSteamAppsFromLibrariesSync libraryFolders ;;
        ret (Resolve apps))
       (fun _ => ret (Resolve []))).

Definition isSteamRunning : Promise bool :=
  newPromise
    (try_catch
       (let currentPlatform := os_platform h in
        match SteamProcess.processQuery currentPlatform with
        | None => ret (Resolve false)
        | Some command =>
            output <- execSync h command ;;
            if String.eqb currentPlatform "win32"
            then ret (Resolve (JS.includes output "steam.exe"))
            else ret (Resolve (JS.truthy (JS.trim output)))
        end)
       (fun _ => ret (Resolve false))).

Definition getSteamVersion (steamPath : string) : Promise (option string) :=
  newPromise
    (try_catch
       (version <- SteamVersion.getSteamVersionSync h steamPath ;;
        ret (Resolve version))
       (fun _ => ret (Resolve None))).
End WithHost.
End Async.

(** ** [index.ts]: the public operations

    The two revisions of [index.ts] read the same but for the functions
    they call and for the path normalisation of [findSteamLocation]; the
    operations are written once over these. *)
Section Operations.
Variable h : Host.
Variable findSteamPathSync : M string.
Variable getInstalledSteamAppsFromLibrariesSync : list string -> M (list SteamApp).
Variable canonical : string -> string.

Definition rethrowNotFound {A} (currentPlatform : string) (error : Exn) : M A :=
  if isSteamNotFoundError error then throw error
  else throw (newSteamNotFoundError
                (Some ("Failed to find Steam on " +:+ currentPlatform +:+ ": "
                         +:+ message error))
                (Some currentPlatform)).

Definition findSteamLocation_with : Promise SteamLocation :=
  let currentPlatform := os_platform h in
  try_catch
    (steamPath <- await (Async.findSteamPath findSteamPathSync) ;;
     libraryFolders <- await (catch (Async.getLibraryFolders h steamPath)
                                    (fun _ => ret [])) ;;
     let isWin := String.eqb currentPlatform "win32" in
     let steamPath := if isWin then canonical steamPath else steamPath in
     let libraryFolders :=
       if isWin then List.map canonical libraryFolders else libraryFolders in
     isRunning <- await (Async.isSteamRunning h) ;;
     version <- await (catch (Async.getSteamVersion h steamPath)
                             (fun _ => ret None)) ;;
     ret {| path := steamPath; isRunning := isRunning;
            platform := currentPlatform; version := version;
            libraryFolders := libraryFolders |})
    (rethrowNotFound currentPlatform).

Definition findSteamLocationSync_with : M SteamLocation :=
  let currentPlatform := os_platform h in
  try_catch
    (steamPath <- findSteamPathSync ;;
     libraryFolders <- SteamLibraries.getLibraryFoldersSync h steamPath ;;
     let isWin := String.eqb currentPlatform "win32" in
     let steamPath := if isWin then canonical steamPath else steamPath in
     let libraryFolders :=
       if isWin then List.map canonical libraryFolders else libraryFolders in
     isRunning <- SteamProcess.isSteamRunningSync h ;;
     version <- SteamVersion.getSteamVersionSync h steamPath ;;
     ret {| path := steamPath; isRunning := isRunning;
            platform := currentPlatform; version := version;
            libraryFolders := libraryFolders |})
    (rethrowNotFound currentPlatform).

Definition rethrowApp {A} (appId : string) (error : Exn) : M A :=
  if isSteamAppNotFoundError error || isSteamNotFoundError error then throw error
  else throw (newSteamAppNotFoundError appId
                (Some ("Error finding Steam app: " +:+ message error))).

(** [steamPath || findSteamPathSync()]: the resolver runs only when the
    argument is absent or empty. *)
Definition actualPath (steamPath : option string) (resolver : M string) : M string :=
  match JS.present steamPath with
  | Some p => ret p
  | None => resolver
  end.

Definition findSteamApp_with (appId : string) (steamPath : option string)
  : Promise SteamApp :=
  try_catch
    (actualSteamPath <- actualPath steamPath (await (Async.findSteamPath findSteamPathSync)) ;;
     libraryFolders <- await (Async.getLibraryFolders h actualSteamPath) ;;
     SteamApps.findSteamAppInLibraries h appId libraryFolders actualSteamPath)
    (rethrowApp appId).

Definition findSteamAppSync_with (appId : string) (steamPath : option string)
  : M SteamApp :=
  try_catch
    (actualSteamPath <- actualPath steamPath findSteamPathSync ;;
     libraryFolders <- SteamLibraries.getLibraryFoldersSync h actualSteamPath ;;
     SteamApps.findSteamAppInLibrariesSync h appId libraryFolders actualSteamPath)
    (rethrowApp appId).

Definition rethrowApps {A} (error : Exn) : M A :=
  if isSteamNotFoundError error then throw error
  else throw (newSteamNotFoundError
                (Some ("Error getting installed Steam apps: " +:+ message error))
                None).

(** The [try] block returns the promise of
    [getInstalledSteamAppsFromLibraries] without awaiting it, so its
    settlement passes by the [catch] block. *)
Definition getInstalledSteamApps_with (steamPath : option string)
  : Promise (list SteamApp) :=
  returned <-
    try_catch
      (actualSteamPath <- actualPath steamPath (await (Async.findSteamPath findSteamPathSync)) ;;
       libraryFolders <- await (Async.getLibraryFolders h actualSteamPath) ;;
       ret (Async.getInstalledSteamAppsFromLibraries
              getInstalledSteamAppsFromLibrariesSync libraryFolders))
      rethrowApps ;;
  await returned.

Definition getInstalledSteamAppsSync_with (steamPath : option string)
  : M (list SteamApp) :=
  try_catch
    (actualSteamPath <- actualPath steamPath findSteamPathSync ;;
     libraryFolders <- SteamLibraries.getLibraryFoldersSync h actualSteamPath ;;
     getInstalledSteamAppsFromLibrariesSync libraryFolders)
    rethrowApps.
End Operations.

(** [index.ts] over [steam-path.ts], [steam-libraries.ts], [steam-apps.ts],
    [steam-process.ts] and [steam-version.ts]. *)
Module Index.
Section WithHost.
Variable h : Host.

Definition findSteamLocation : Promise SteamLocation :=
  findSteamLocation_with h (SteamPath.findSteamPathSync h) (path_normalize h).
Definition findSteamLocationSync : M SteamLocation :=
  findSteamLocationSync_with h (SteamPath.findSteamPathSync h) (path_normalize h).
Definition findSteamApp : string -> option string -> Promise SteamApp :=
  findSteamApp_with h (SteamPath.findSteamPathSync h).
Definition findSteamAppSync : string -> option string -> M SteamApp :=
  findSteamAppSync_with h (SteamPath.findSteamPathSync h).
Definition getInstalledSteamApps : option string -> Promise (list SteamApp) :=
  getInstalledSteamApps_with h (SteamPath.findSteamPathSync h)
    (SteamApps.getInstalledSteamAppsFromLibrariesSync h).
Definition getInstalledSteamAppsSync : option string -> M (list SteamApp) :=
  getInstalledSteamAppsSync_with h (SteamPath.findSteamPathSync h)
    (SteamApps.getInstalledSteamAppsFromLibrariesSync h).
Definition isSteamRunning : Promise bool := Async.isSteamRunning h.
Definition isSteamRunningSync : M bool := SteamProcess.isSteamRunningSync h.
End WithHost.
End Index.

(** The public operations of the single-file [src/index.ts]. *)
Module SingleFileIndex.
Section WithHost.
Variable h : Host.

Definition canonical (p : string) : string := path_normalize h (path_resolve h [p]).

Definition findSteamLocation : Promise SteamLocation :=
  findSteamLocation_with h (SingleFile.findSteamPathSync h) canonical.
Definition findSteamLocationSync : M SteamLocation :=
  findSteamLocationSync_with h (SingleFile.findSteamPathSync h) canonical.
Definition findSteamApp : string -> option string -> Promise SteamApp :=
  findSteamApp_with h (SingleFile.findSteamPathSync h).
Definition findSteamAppSync : string -> option string -> M SteamApp :=
  findSteamAppSync_with h (SingleFile.findSteamPathSync h).
Definition getInstalledSteamApps : option string -> Promise (list SteamApp) :=
  getInstalledSteamApps_with h (SingleFile.findSteamPathSync h)
    (SingleFileApps.getInstalledSteamAppsFromLibrariesSync h).
Definition getInstalledSteamAppsSync : option string -> M (list SteamApp) :=
  getInstalledSteamAppsSync_with h (SingleFile.findSteamPathSync h)
    (SingleFileApps.getInstalledSteamAppsFromLibrariesSync h).
Definition isSteamRunning : Promise bool := Async.isSteamRunning h.
Definition isSteamRunningSync : M bool := SteamProcess.isSteamRunningSync h.
End WithHost.
End SingleFileIndex.

(** ** Hosts to run the program on *)

Module Sample.

Fixpoint lookup {A} (k : string) (l : list (string * A)) : option A :=
  match l with
  | [] => None
  | (k', v) :: rest => if String.eqb k k' then Some v else lookup k rest
  end.

(** Joins the non-empty segments with the separator. *)
Definition join (sep : string) (parts : list string) : string :=
  match List.filter JS.truthy parts with
  | [] => "."
  | ps => String.concat sep ps
  end.

Definition isAbsolute (p : string) : bool :=
  JS.startsWith p "/" || JS.startsWith p "\" || JS.startsWith (JS.dropN 1 p) ":".

(** Joins the segments from the last absolute one on, under the working
    directory when none is absolute. *)
Fixpoint resolveFrom (sep base : string) (parts : list string) : string :=
  match parts with
  | [] => base
  | p :: rest =>
      if JS.truthy p then
        resolveFrom sep (if isAbsolute p then p else base +:+ sep +:+ p) rest
      else resolveFrom sep base rest
  end.

(** A machine given by its platform tag, path separator, working
    directory, home directory, environment, files with their contents
    ([SysErr] for a file that cannot be read), directories with their
    entries, and commands with their output. *)
Definition host (tag sep cwd home : string)
    (env : list (string * string))
    (files : list (string * sys string))
    (dirs : list (string * list string))
    (commands : list (string * string)) : Host :=
  {| os_platform := tag;
     os_homedir := home;
     process_env := fun n => lookup n env;
     fs_exists := fun p =>
       match lookup p files, lookup p dirs with
       | None, None => false
       | _, _ => true
       end;
     fs_readFile := fun p =>
       match lookup p files with
       | Some c => c
       | None => SysErr "ENOENT: no such file or directory"
       end;
     fs_readdir := fun p =>
       match lookup p dirs with
       | Some es => SysOk es
       | None => SysErr "ENOENT: no such file or directory"
       end;
     child_exec := fun c =>
       match lookup c commands with
       | Some out => SysOk out
       | None => SysErr "Command failed"
       end;
     path_join := join sep;
     path_normalize := fun p => p;
     path_resolve := resolveFrom sep cwd |}.

Definition tab : string := String (ascii_of_N 9) "".
Definition lf : string := String (ascii_of_N 10) "".
Definition field (k v : string) : string :=
  JS.DQ +:+ k +:+ JS.DQ +:+ tab +:+ tab +:+ JS.DQ +:+ v +:+ JS.DQ +:+ lf.

(** A Linux machine with Team Fortress 2 installed in the main library. *)
Definition tf2Manifest : string :=
  field "name" "Team Fortress 2" +:+ field "installdir" "Team Fortress 2"
    +:+ field "SizeOnDisk" "15000000000" +:+ field "LastUpdated" "1640995200".

Definition linuxBox : Host :=
  host "linux" "/" "/work" "/home/user" []
    [ ("/home/user/.local/share/Steam/steamapps/libraryfolders.vdf",
        SysOk (field "path" "/home/user/.local/share/Steam" +:+ field "path" "/mnt/games"));
      ("/home/user/.local/share/Steam/steamapps/appmanifest_440.acf", SysOk tf2Manifest) ]
    [ ("/home/user/.local/share/Steam", ["steamapps"]);
      ("/home/user/.local/share/Steam/steamapps",
        ["appmanifest_440.acf"; "common"; "libraryfolders.vdf"]);
      ("/home/user/.local/share/Steam/steamapps/common", ["Team Fortress 2"]);
      ("/home/user/.local/share/Steam/steamapps/common/Team Fortress 2", []);
      ("/mnt/games/steamapps", []) ]
    [].
End Sample.

(** ** Vocabulary of the statements *)

Section Vocabulary.
Variable h : Host.

(** A directory that exists and holds the launcher. *)
Definition verified (dir : string) : bool :=
  fs_exists h dir && fs_exists h (steamExe h dir).

(** The probes that decide [verified dir]. *)
Definition probesOf (dir : string) : list Event :=
  Probe dir :: (if fs_exists h dir then [Probe (steamExe h dir)] else []).

(** The install path the registry query reports, as the resolver tests
    it; [None] when the query fails or its output holds no path. *)
Definition registryPath (unescape canonical : string -> string) : option string :=
  match child_exec h registryQuery with
  | SysOk regOutput =>
      match JS.present (JS.matchRegistry regOutput) with
      | Some v => Some (canonical (unescape (JS.trim v)))
      | None => None
      end
  | SysErr _ => None
  end.

Definition registryMisses (unescape canonical : string -> string) : Prop :=
  registryPath unescape canonical = None \/
  exists p, registryPath unescape canonical = Some p /\ verified p = false.

Definition registryProbes (unescape canonical : string -> string) : list Event :=
  match registryPath unescape canonical with
  | Some p => probesOf p
  | None => []
  end.

Definition windowsNotFound : Exn :=
  SteamNotFoundError "Could not locate Steam installation on Windows" None.

(** What the specification asks of a Windows resolver [run] whose
    registry value is read through [unescape] and whose paths are put in
    the form [canonical]. *)
Definition windowsContract (unescape canonical : string -> string) (run : M string) : Prop :=
  let candidates := List.map canonical (commonPathsWindows h) in
  (forall p,
      registryPath unescape canonical = Some p -> verified p = true ->
      run = (Returns p, Exec registryQuery :: probesOf p))
  /\ (forall before q after,
      registryMisses unescape canonical ->
      candidates = before ++ q :: after ->
      Forall (fun c => verified c = false) before ->
      verified q = true ->
      run = (Returns q,
             Exec registryQuery :: registryProbes unescape canonical
               ++ flat_map probesOf before ++ probesOf q))
  /\ (registryMisses unescape canonical ->
      Forall (fun c => verified c = false) candidates ->
      run = (Throws windowsNotFound,
             Exec registryQuery :: registryProbes unescape canonical
               ++ flat_map probesOf candidates)).
End Vocabulary.

Definition linuxNotFound : Exn :=
  SteamNotFoundError "Could not locate Steam installation on Linux" None.

Definition unsupportedPlatform (tag : string) : Exn :=
  SteamNotFoundError ("Unsupported platform: " +:+ tag) (Some tag).

(** The path [which steam] reports, when the command succeeds, prints
    something, and the path printed exists. *)
Definition whichPath (h : Host) : option string :=
  match child_exec h "which steam" with
  | SysOk whichOutput =>
      let p := JS.trim whichOutput in
      if JS.truthy p && fs_exists h p then Some p else None
  | SysErr _ => None
  end.

(** The queries of the [which steam] block. *)
Definition whichTrace (h : Host) : list Event :=
  Exec "which steam" ::
  match child_exec h "which steam" with
  | SysOk whichOutput =>
      if JS.truthy (JS.trim whichOutput) then [Probe (JS.trim whichOutput)] else []
  | SysErr _ => []
  end.

Definition absent (h : Host) (p : string) : Prop := fs_exists h p = false.

Definition isExec (e : Event) : bool :=
  match e with Exec _ => true | _ => false end.

Definition supported (tag : string) : Prop :=
  tag = "win32" \/ tag = "darwin" \/ tag = "linux".

Definition winBox : Host :=
  Sample.host "win32" "\" "C:\work" "C:\Users\me"
    [("LOCALAPPDATA", "C:\Users\me\AppData\Local"); ("APPDATA", "C:\Users\me\AppData\Roaming")]
    [ ("D:\Steam\steam.exe", SysOk "MZ"); ("C:\Program Files\Steam\steam.exe", SysOk "MZ") ]
    [ ("D:\Steam", ["steam.exe"]); ("C:\Program Files\Steam", ["steam.exe"]) ]
    [ (registryQuery, Sample.lf +:+ "HKEY_CURRENT_USER\Software\Valve\Steam" +:+ Sample.lf
                        +:+ "    SteamPath    REG_SZ    D:\Steam" +:+ Sample.lf) ].

(** A win32 machine whose registry has no Steam key and whose Steam is
    under Program Files. *)
Definition plainWinBox : Host :=
  Sample.host "win32" "\" "C:\work" "C:\Users\me" []
    [ ("C:\Program Files\Steam\steam.exe", SysOk "MZ") ]
    [ ("C:\Program Files (x86)\Steam", []); ("C:\Program Files\Steam", ["steam.exe"]) ]
    [].

(** The text of the manifest of [appId] in [folder], when the file exists
    and can be read. *)
Definition readableManifest (h : Host) (folder appId : string) : option string :=
  if fs_exists h (SteamApps.manifestPath h folder appId) then
    match fs_readFile h (SteamApps.manifestPath h folder appId) with
    | SysOk content => Some content
    | SysErr _ => None
    end
  else None.

Definition appNotFound (appId : string) : Exn :=
  SteamAppNotFoundError ("Steam app with ID " +:+ appId +:+ " not found").

(** The dedup key of an entry of the inventory. *)
Definition entryKey (h : Host) (app : SteamApp) : option string :=
  match JS.present (installDir app) with
  | Some dir =>
      Some (SteamApps.dedupKey h (String.eqb (os_platform h) "win32") (appId app) dir)
  | None => None
  end.

(** *** The library-folder list, in the words of the specification *)

Section LibraryList.
Variable h : Host.

(** The root's own [steamapps], when it exists. *)
Definition mainFolder (root : string) : list string :=
  if fs_exists h (path_join h [root; "steamapps"])
  then [path_normalize h (path_join h [root; "steamapps"])]
  else [].

(** The values of the path fields of a text, in the order of the text. *)
Definition pathValues (content : string) : list string :=
  JS.fieldValues "path" content.

Definition vdfFile (root : string) : string :=
  path_join h [root; "steamapps"; "libraryfolders.vdf"].

(** The path entries of the root's libraryfolders.vdf; none when the
    file is not there or cannot be read. *)
Definition pathEntries (root : string) : list string :=
  if fs_exists h (vdfFile root) then
    match fs_readFile h (vdfFile root) with
    | SysOk content => pathValues content
    | SysErr _ => []
    end
  else [].

(** An entry with its doubled backslashes undone, [steamapps] appended,
    normalized. *)
Definition libraryCandidate (v : string) : string :=
  path_normalize h (path_join h [JS.replaceAll "\\" "\" v; "steamapps"]).

(** Appends, in order, each candidate that exists and is not yet in the
    list. *)
Fixpoint appendNew (acc : list string) (candidates : list string) : list string :=
  match candidates with
  | [] => acc
  | c :: rest =>
      if fs_exists h c && negb (bool_decide (c ∈ acc))
      then appendNew (acc ++ [c]) rest
      else appendNew acc rest
  end.

Definition libraryFolderList (root : string) : list string :=
  appendNew (mainFolder root) (List.map libraryCandidate (pathEntries root)).
End LibraryList.

(** A run that returns. *)
Definition returns {A} (m : M A) : Prop := exists a, result m = Returns a.

(** What the loops of the inventory maintain: no two apps collected share
    a key, and the key of each is in the set. *)
Definition keysRecorded (h : Host) (st : SteamApps.inventory) : Prop :=
  NoDup (List.map (entryKey h) st.1)
  /\ Forall (fun a => exists k, entryKey h a = Some k /\ k ∈ st.2) st.1.

(** A library whose manifest of app 440 exists but cannot be read, next
    to one where it can. *)
Definition lockedBox : Host :=
  Sample.host "linux" "/" "/work" "/home/user" []
    [ ("/lib/appmanifest_440.acf", SysErr "EACCES: permission denied");
      ("/lib2/appmanifest_440.acf", SysOk (Sample.field "name" "Team Fortress 2")) ]
    [ ("/lib", ["appmanifest_440.acf"]); ("/lib2", ["appmanifest_440.acf"]) ]
    [].

(** A library whose manifest of app 440 names a directory that is not
    there and gives words where numbers belong. *)
Definition oddManifest : string :=
  Sample.field "name" "Team Fortress 2" +:+ Sample.field "installdir" "Team Fortress 2"
    +:+ Sample.field "SizeOnDisk" "unknown" +:+ Sample.field "LastUpdated" "never".

Definition oddBox : Host :=
  Sample.host "linux" "/" "/work" "/home/user" []
    [ ("/lib/appmanifest_440.acf", SysOk oddManifest) ]
    [ ("/lib", ["appmanifest_440.acf"]) ]
    [].

(** A win32 machine, whose file system ignores case: one library reached
    under two spellings of its path. *)
Definition twinBox : Host :=
  Sample.host "win32" "\" "C:\work" "C:\Users\me" []
    [ ("D:\Games\steamapps\appmanifest_440.acf", SysOk Sample.tf2Manifest);
      ("d:\games\steamapps\appmanifest_440.acf", SysOk Sample.tf2Manifest) ]
    [ ("D:\Games\steamapps", ["appmanifest_440.acf"; "common"]);
      ("d:\games\steamapps", ["appmanifest_440.acf"; "common"]);
      ("D:\Games\steamapps\common\Team Fortress 2", []);
      ("d:\games\steamapps\common\Team Fortress 2", []) ]
    [].

(** The win32 machine of the README: Steam under Program Files, found
    through the registry, with a second library on drive D. *)
Definition readmeBox : Host :=
  Sample.host "win32" "\" "C:\work" "C:\Users\me" []
    [ ("C:\Program Files (x86)\Steam\steam.exe", SysOk "MZ");
      ("C:\Program Files (x86)\Steam\steamapps\libraryfolders.vdf",
        SysOk (Sample.field "path" "C:\\Program Files (x86)\\Steam"
                 +:+ Sample.field "path" "D:\\SteamLibrary"));
      ("D:\SteamLibrary\steamapps\appmanifest_570.acf",
        SysOk (Sample.field "name" "Dota 2" +:+ Sample.field "installdir" "dota 2 beta"
                 +:+ Sample.field "SizeOnDisk" "20000000000")) ]
    [ ("C:\Program Files (x86)\Steam", ["steam.exe"; "steamapps"]);
      ("C:\Program Files (x86)\Steam\steamapps", ["libraryfolders.vdf"]);
      ("D:\SteamLibrary\steamapps", ["appmanifest_570.acf"; "common"]);
      ("D:\SteamLibrary\steamapps\common\dota 2 beta", []) ]
    [ (registryQuery, "    SteamPath    REG_SZ    C:\Program Files (x86)\Steam");
      ("tasklist /FI " +:+ JS.DQ +:+ "IMAGENAME eq steam.exe" +:+ JS.DQ +:+ " /FO CSV /NH",
        JS.DQ +:+ "steam.exe" +:+ JS.DQ +:+ ",1234,Console,1,123456 K");
      (SteamVersion.versionQuery "C:\Program Files (x86)\Steam\steam.exe",
        "5.98.0.0" +:+ Sample.lf) ].

(** A Linux machine where Steam is a system package only. *)
Definition debianBox : Host :=
  Sample.host "linux" "/" "/work" "/home/user" []
    [ ("/usr/bin/steam", SysOk "#!/bin/sh") ]
    [ ("/usr/bin", ["steam"]) ]
    [ ("which steam", "/usr/bin/steam" +:+ Sample.lf) ].

(** The same machine when the package lives where neither revision looks. *)
Definition nixBox : Host :=
  Sample.host "linux" "/" "/work" "/home/user" []
    [ ("/run/current-system/sw/bin/steam", SysOk "#!/bin/sh") ]
    [ ("/run/current-system/sw/bin", ["steam"]) ]
    [ ("which steam", "/run/current-system/sw/bin/steam" +:+ Sample.lf) ].

Definition aixBox : Host :=
  Sample.host "aix" "/" "/work" "/home/user" [] [] [] [].

(** ** Vocabulary of the further properties *)

Definition macNotFound : Exn :=
  SteamNotFoundError "Could not locate Steam installation on macOS" None.

(** What the single-file resolver accepts on darwin: a path that exists
    and, when it lies in the application bundle, holds the [Steam]
    executable. *)
Definition qualifiesMacOS (h : Host) (p : string) : bool :=
  fs_exists h p
  && (if JS.includes p "Steam.app" then fs_exists h (path_join h [p; "Steam"]) else true).

(** A trace in which no command is run. *)
Definition quiet (t : list Event) : Prop := Forall (fun e => isExec e = false) t.

(** The appId a directory entry stands for, when its name passes the
    tests of the inventory. *)
Definition manifestEntry (file : string) : option string :=
  if JS.startsWith file "appmanifest_" && JS.endsWith file ".acf"
  then JS.present (JS.matchManifestName file)
  else None.

(** What one directory entry of [folder] adds to the inventory of the
    single-file index.ts: the app its manifest gives, when installed. *)
Definition sighting (h : Host) (folder file : string) : option SteamApp :=
  match manifestEntry file with
  | Some id =>
      match result (SteamApps.findSteamAppInLibrariesSync h id [folder] "") with
      | Returns app => if isInstalled app then Some app else None
      | Throws _ => None
      end
  | None => None
  end.

(** The entries of a folder; none when it cannot be listed. *)
Definition listing (h : Host) (folder : string) : list string :=
  match fs_readdir h folder with
  | SysOk files => files
  | SysErr _ => []
  end.

(** The sightings of all folders, folder by folder, entry by entry. *)
Definition sightings (h : Host) (folders : list string) : list SteamApp :=
  flat_map (fun folder => omap (sighting h folder) (listing h folder)) folders.

(** The key filter of steam-apps.ts on one sighting. *)
Definition dedupStep (h : Host) (st : SteamApps.inventory) (app : SteamApp)
  : SteamApps.inventory :=
  match entryKey h app with
  | Some key => if decide (key ∈ st.2) then st else (st.1 ++ [app], {[key]} ∪ st.2)
  | None => st
  end.

(** A version file that exists, can be read and is not blank gives its
    trimmed text. *)
Definition versionFrom (h : Host) (p : string) : option string :=
  if fs_exists h p then
    match fs_readFile h p with
    | SysOk raw => if JS.truthy (JS.trim raw) then Some (JS.trim raw) else None
    | SysErr _ => None
    end
  else None.

(** A macOS machine with Steam in the user's library and the application
    in /Applications. *)
Definition macBox : Host :=
  Sample.host "darwin" "/" "/work" "/Users/me" []
    [ ("/Applications/Steam.app/Contents/MacOS/Steam", SysOk "exe");
      ("/Users/me/Library/Application Support/Steam/version.txt",
        SysOk ("  1700000000 " +:+ Sample.lf)) ]
    [ ("/Applications/Steam.app/Contents/MacOS", ["Steam"]);
      ("/Users/me/Library/Application Support/Steam", ["steamapps"; "version.txt"]);
      ("/Users/me/Library/Application Support/Steam/steamapps", []) ]
    [ ("pgrep -f " +:+ JS.DQ +:+ "Steam.app" +:+ JS.DQ, "811" +:+ Sample.lf) ].

(** A Linux machine with the Debian package layout: both
    ~/.steam/steam and ~/.steam/debian-installation are there. *)
Definition steamBox : Host :=
  Sample.host "linux" "/" "/work" "/home/user" []
    []
    [ ("/home/user/.steam/steam", []); ("/home/user/.steam/debian-installation", []) ]
    [ ("which steam", "/usr/games/steam" +:+ Sample.lf) ].

(** A library with one installed app, one manifest whose directory is
    gone, a backup of a manifest, and a folder that cannot be listed. *)
Definition mixedBox : Host :=
  Sample.host "linux" "/" "/work" "/home/user" []
    [ ("/lib/appmanifest_440.acf", SysOk Sample.tf2Manifest);
      ("/lib/appmanifest_570.acf",
        SysOk (Sample.field "name" "Dota 2" +:+ Sample.field "installdir" "dota 2 beta"));
      ("/lib/appmanifest_440.acf.bak", SysOk Sample.tf2Manifest) ]
    [ ("/lib", ["appmanifest_440.acf"; "appmanifest_570.acf"; "appmanifest_440.acf.bak";
                "common"; "libraryfolders.vdf"]);
      ("/lib/common/Team Fortress 2", []) ]
    [].

(** * Properties *)

(** ** Runs *)

Lemma bind_returns {A B} (a : A) (t : list Event) (k : A -> M B) :
  bind (Returns a, t) k = (fst (k a), t ++ snd (k a)).
Proof. unfold bind. destruct (k a); reflexivity. Qed.

Lemma result_bind {A B} (m : M A) (k : A -> M B) (a : A) :
  result m = Returns a -> result (bind m k) = result (k a).
Proof.
  destruct m as [r t]. simpl. intros ->. unfold bind. destruct (k a); reflexivity.
Qed.

Lemma result_try_returns {A} (m : M A) (handler : Exn -> M A) (a : A) :
  result m = Returns a -> result (try_catch m handler) = Returns a.
Proof. destruct m as [r t]. simpl. intros ->. reflexivity. Qed.


(** ** The Windows resolver *)

Section WindowsFacts.
Variable h : Host.
Variables unescape canonical : string -> string.

Lemma hasLauncher_run dir :
  hasLauncher h dir = (Returns (verified h dir), probesOf h dir).
Proof.
  unfold hasLauncher, existsBoth, existsSync, verified, probesOf, bind, ret.
  destruct (fs_exists h dir); reflexivity.
Qed.

Lemma registryLookup_run :
  registryLookup h unescape canonical =
    (Returns (match registryPath h unescape canonical with
              | Some p => if verified h p then Some p else None
              | None => None
              end),
     Exec registryQuery :: registryProbes h unescape canonical).
Proof.
  unfold registryLookup, registryProbes, registryPath, execSync, ask.
  destruct (child_exec h registryQuery) as [out | msg]; simpl; [| reflexivity].
  destruct (JS.present (JS.matchRegistry out)) as [v |]; simpl; [| reflexivity].
  rewrite hasLauncher_run. simpl.
  rewrite app_nil_r. reflexivity.
Qed.

Lemma probeCommonPaths_found before q after :
  Forall (fun c => verified h c = false) (List.map canonical before) ->
  verified h (canonical q) = true ->
  probeCommonPaths h canonical (before ++ q :: after) =
    (Returns (canonical q),
     flat_map (probesOf h) (List.map canonical before) ++ probesOf h (canonical q)).
Proof.
  induction before as [| c before IH]; simpl; intros Hb Hq.
  - rewrite hasLauncher_run, bind_returns, Hq. simpl. rewrite app_nil_r. reflexivity.
  - inversion Hb as [| x l Hc Hrest]; subst.
    rewrite hasLauncher_run, bind_returns, Hc, (IH Hrest Hq). simpl.
    rewrite <- app_assoc. reflexivity.
Qed.

Lemma probeCommonPaths_none paths :
  Forall (fun c => verified h c = false) (List.map canonical paths) ->
  probeCommonPaths h canonical paths =
    (Throws windowsNotFound, flat_map (probesOf h) (List.map canonical paths)).
Proof.
  induction paths as [| c paths IH]; simpl; intros Hb.
  - reflexivity.
  - inversion Hb as [| x l Hc Hrest]; subst.
    rewrite hasLauncher_run, bind_returns, Hc, (IH Hrest). reflexivity.
Qed.

Lemma registryMisses_lookup :
  registryMisses h unescape canonical ->
  match registryPath h unescape canonical with
  | Some p => if verified h p then Some p else None
  | None => None
  end = None.
Proof.
  intros [Hn | [p [Hp Hv]]].
  - rewrite Hn. reflexivity.
  - rewrite Hp, Hv. reflexivity.
Qed.

Lemma map_eq_app_cons (l : list string) before q after :
  List.map canonical l = before ++ q :: after ->
  exists b' q' a', l = b' ++ q' :: a' /\ List.map canonical b' = before /\ canonical q' = q.
Proof.
  revert before. induction l as [| x l IH]; intros before Heq.
  - destruct before; discriminate.
  - destruct before as [| b before]; simpl in Heq.
    + injection Heq as Hx Hl. exists [], x, l. repeat split; assumption.
    + injection Heq as Hx Hl. destruct (IH _ Hl) as (b' & q' & a' & -> & Hb & Hq).
      exists (x :: b'), q', a'. simpl. rewrite Hb, Hx. repeat split; assumption.
Qed.

Lemma windows_body_contract :
  windowsContract h unescape canonical (findSteamPathWindows_body h unescape canonical).
Proof.
  unfold windowsContract, findSteamPathWindows_body.
  rewrite registryLookup_run.
  split; [| split].
  - intros p Hp Hv. unfold registryProbes. rewrite bind_returns, Hp, Hv. simpl.
    rewrite app_nil_r. reflexivity.
  - intros before q after Hmiss Hc Hb Hq.
    rewrite bind_returns, (registryMisses_lookup Hmiss).
    destruct (map_eq_app_cons _ _ _ _ Hc) as (b' & q' & a' & Hl & <- & <-).
    rewrite Hl, (probeCommonPaths_found _ _ _ Hb Hq). reflexivity.
  - intros Hmiss Hall.
    rewrite bind_returns, (registryMisses_lookup Hmiss), (probeCommonPaths_none _ Hall).
    reflexivity.
Qed.

(** The three cases of [windowsContract] leave no host out. *)
Lemma first_verified_or_none (candidates : list string) :
  (exists before q after,
      candidates = before ++ q :: after
      /\ Forall (fun c => verified h c = false) before
      /\ verified h q = true)
  \/ Forall (fun c => verified h c = false) candidates.
Proof.
  induction candidates as [| c cs IH].
  - right. constructor.
  - destruct (verified h c) eqn:Ec.
    + left. exists [], c, cs. repeat split; [constructor | exact Ec].
    + destruct IH as [(before & q & after & -> & Hb & Hq) | Hall].
      * left. exists (c :: before), q, after. repeat split; [constructor |]; assumption.
      * right. constructor; assumption.
Qed.

Lemma registry_hits_or_misses :
  (exists p, registryPath h unescape canonical = Some p /\ verified h p = true)
  \/ registryMisses h unescape canonical.
Proof.
  unfold registryMisses.
  destruct (registryPath h unescape canonical) as [p |]; [| right; left; reflexivity].
  destruct (verified h p) eqn:Ev; [left | right; right]; exists p; split; auto.
Qed.
End WindowsFacts.

Lemma dispatch_win32 h :
  os_platform h = "win32" ->
  SteamPath.findSteamPathSync h = SteamPath.findSteamPathWindows h /\
  SingleFile.findSteamPathSync h = SingleFile.findSteamPathWindows h.
Proof.
  intros Hp. unfold SteamPath.findSteamPathSync, SingleFile.findSteamPathSync.
  rewrite Hp. split; reflexivity.
Qed.

Lemma dispatch_linux h :
  os_platform h = "linux" ->
  SteamPath.findSteamPathSync h = SteamPath.findSteamPathLinux h /\
  SingleFile.findSteamPathSync h = SingleFile.findSteamPathLinux h.
Proof.
  intros Hp. unfold SteamPath.findSteamPathSync, SingleFile.findSteamPathSync.
  rewrite Hp. split; reflexivity.
Qed.

(** C1.  On win32, root resolution (in both revisions) queries the
    registry first and returns the reported path at once when that path
    exists and holds steam.exe; when the registry gives no path, or one
    that fails the test, it probes the four conventional paths in order
    and returns the first that exists and holds steam.exe, throwing
    SteamNotFoundError when none does.  The trace ends with the probes of
    the path returned: nothing is probed after the first verified match. *)
Theorem windows_resolution_order (h : Host) :
  os_platform h = "win32" ->
  commonPathsWindows h =
    [ "C:\Program Files (x86)\Steam";
      "C:\Program Files\Steam";
      path_resolve h [JS.orDefault (process_env h "LOCALAPPDATA") ""; "Steam"];
      path_resolve h [JS.orDefault (process_env h "APPDATA") ""; "Steam"] ]
  /\ windowsContract h (JS.replaceAll "\" "\") (path_normalize h)
       (SteamPath.findSteamPathSync h)
  /\ windowsContract h (JS.replaceAll "\\" "\")
       (fun p => path_normalize h (path_resolve h [p]))
       (SingleFile.findSteamPathSync h).
Proof.
  intros Hp. destruct (dispatch_win32 h Hp) as [-> ->].
  split; [reflexivity |].
  split; apply windows_body_contract.
Qed.

Lemma windows_resolution_order_witness :
  SteamPath.findSteamPathSync winBox =
    (Returns "D:\Steam", [Exec registryQuery; Probe "D:\Steam"; Probe "D:\Steam\steam.exe"])
  /\ SingleFile.findSteamPathSync plainWinBox =
    (Returns "C:\Program Files\Steam",
     [ Exec registryQuery;
       Probe "C:\Program Files (x86)\Steam"; Probe "C:\Program Files (x86)\Steam\steam.exe";
       Probe "C:\Program Files\Steam"; Probe "C:\Program Files\Steam\steam.exe" ]).
Proof.
  split.
  - exact (proj1 (proj1 (proj2 (windows_resolution_order winBox eq_refl)))
             "D:\Steam" eq_refl eq_refl).
  - apply (proj1 (proj2 (proj2 (proj2 (windows_resolution_order plainWinBox eq_refl))))
             ["C:\Program Files (x86)\Steam"] "C:\Program Files\Steam"
             ["C:\work\Steam"; "C:\work\Steam"]).
    + left. reflexivity.
    + reflexivity.
    + constructor; [reflexivity | constructor].
    + reflexivity.
Defined.

(** C8.  For a platform tag other than win32, darwin and linux, root
    resolution (in both revisions) throws SteamNotFoundError carrying
    the tag, and its trace is empty: no probe, no registry query, no
    command.  The same error, after no query, is what findSteamLocationSync
    gives. *)
Theorem unsupported_platform_fails_at_once (h : Host) :
  ~ supported (os_platform h) ->
  SteamPath.findSteamPathSync h = (Throws (unsupportedPlatform (os_platform h)), [])
  /\ SingleFile.findSteamPathSync h = (Throws (unsupportedPlatform (os_platform h)), [])
  /\ Index.findSteamLocationSync h = (Throws (unsupportedPlatform (os_platform h)), [])
  /\ SingleFileIndex.findSteamLocationSync h
     = (Throws (unsupportedPlatform (os_platform h)), []).
Proof.
  intros Hn.
  assert (H : SteamPath.findSteamPathSync h = (Throws (unsupportedPlatform (os_platform h)), [])
              /\ SingleFile.findSteamPathSync h
                 = (Throws (unsupportedPlatform (os_platform h)), [])).
  { unfold SteamPath.findSteamPathSync, SingleFile.findSteamPathSync, supported in *.
    destruct (String.eqb_spec (os_platform h) "win32") as [E | _]; [tauto |].
    destruct (String.eqb_spec (os_platform h) "darwin") as [E | _]; [tauto |].
    destruct (String.eqb_spec (os_platform h) "linux") as [E | _]; [tauto |].
    split; reflexivity. }
  destruct H as [H1 H2]. repeat split; try assumption.
  - unfold Index.findSteamLocationSync, findSteamLocationSync_with. rewrite H1. reflexivity.
  - unfold SingleFileIndex.findSteamLocationSync, findSteamLocationSync_with. rewrite H2.
    reflexivity.
Qed.

Lemma unsupported_platform_fails_at_once_witness :
  SteamPath.findSteamPathSync aixBox =
    (Throws (SteamNotFoundError "Unsupported platform: aix" (Some "aix")), [])
  /\ SingleFile.findSteamPathSync aixBox =
    (Throws (SteamNotFoundError "Unsupported platform: aix" (Some "aix")), [])
  /\ Index.findSteamLocationSync aixBox =
    (Throws (SteamNotFoundError "Unsupported platform: aix" (Some "aix")), [])
  /\ SingleFileIndex.findSteamLocationSync aixBox =
    (Throws (SteamNotFoundError "Unsupported platform: aix" (Some "aix")), []).
Proof.
  apply (unsupported_platform_fails_at_once aixBox).
  unfold supported. simpl. intros [H | [H | H]]; discriminate H.
Defined.

(** ** The Linux resolvers *)

Section LinuxFacts.
Variable h : Host.

Lemma whichSteam_run :
  SingleFile.whichSteam h = (Returns (whichPath h), whichTrace h).
Proof.
  unfold SingleFile.whichSteam, whichPath, whichTrace, execSync, ask.
  destruct (child_exec h "which steam") as [out | msg]; simpl; [| reflexivity].
  destruct (JS.truthy (JS.trim out)); simpl; [| reflexivity].
  destruct (fs_exists h (JS.trim out)); reflexivity.
Qed.

Lemma single_file_probe_all_absent paths :
  Forall (absent h) paths ->
  SingleFile.probeLinux h paths =
    (match whichPath h with
     | Some p => Returns p
     | None => Throws linuxNotFound
     end,
     List.map Probe paths ++ whichTrace h).
Proof.
  induction paths as [| c paths IH]; simpl; intros Ha.
  - rewrite whichSteam_run, bind_returns.
    destruct (whichPath h); simpl; rewrite app_nil_r; reflexivity.
  - inversion Ha as [| x l Hc Hrest]; subst. unfold absent in Hc.
    rewrite Hc, (IH Hrest). reflexivity.
Qed.

Lemma modular_probe_all_absent paths :
  Forall (absent h) paths ->
  SteamPath.probeCandidates h ∅ paths = (Throws linuxNotFound, List.map Probe paths).
Proof.
  induction paths as [| c paths IH]; simpl; intros Ha.
  - reflexivity.
  - inversion Ha as [| x l Hc Hrest]; subst. unfold absent in Hc.
    destruct (decide (c ∈ (∅ : gset string))) as [Hin | _]; [set_solver |].
    simpl. rewrite Hc, (IH Hrest). reflexivity.
Qed.
End LinuxFacts.

(** C7, as the two revisions have it.  On linux, when none of its
    candidate paths exists, the resolver of the single-file index.ts runs
    [which steam] and returns the trimmed path reported when that path is
    not empty and exists; it throws SteamNotFoundError only when that
    lookup gives no such path.  The resolver of steam-path.ts runs no
    command: when none of its candidate paths exists it has probed them
    all and throws SteamNotFoundError. *)
Theorem linux_fallback_per_revision (h : Host) :
  os_platform h = "linux" ->
  (Forall (absent h) (SingleFile.commonPathsLinux h) ->
   SingleFile.findSteamPathSync h =
     (match whichPath h with
      | Some p => Returns p
      | None => Throws linuxNotFound
      end,
      List.map Probe (SingleFile.commonPathsLinux h) ++ whichTrace h))
  /\ (Forall (absent h) (SteamPath.candidatePathsLinux h) ->
      SteamPath.findSteamPathSync h =
        (Throws linuxNotFound, List.map Probe (SteamPath.candidatePathsLinux h))).
Proof.
  intros Hp. destruct (dispatch_linux h Hp) as [-> ->]. split; intros Ha.
  - apply single_file_probe_all_absent, Ha.
  - apply modular_probe_all_absent, Ha.
Qed.

Lemma absent_all (h : Host) paths :
  forallb (fun p => negb (fs_exists h p)) paths = true -> Forall (absent h) paths.
Proof.
  induction paths as [| p paths IH]; simpl; intros H.
  - constructor.
  - apply andb_true_iff in H as [Hp Hrest]. constructor.
    + unfold absent. destruct (fs_exists h p); [discriminate | reflexivity].
    + apply IH, Hrest.
Qed.

Lemma linux_fallback_per_revision_witness :
  SingleFile.findSteamPathSync nixBox =
    (Returns "/run/current-system/sw/bin/steam",
     List.map Probe (SingleFile.commonPathsLinux nixBox)
       ++ [Exec "which steam"; Probe "/run/current-system/sw/bin/steam"])
  /\ SteamPath.findSteamPathSync nixBox =
    (Throws linuxNotFound, List.map Probe (SteamPath.candidatePathsLinux nixBox)).
Proof.
  split.
  - apply (proj1 (linux_fallback_per_revision nixBox eq_refl)).
    apply absent_all. vm_compute. reflexivity.
  - apply (proj2 (linux_fallback_per_revision nixBox eq_refl)).
    apply absent_all. vm_compute. reflexivity.
Defined.

(** C7 as stated fails on steam-path.ts: on this machine no candidate path
    exists and [which steam] reports an existing path, yet the resolver
    throws, having run no command. *)
Lemma linux_which_fallback_counterexample :
  os_platform debianBox = "linux"
  /\ Forall (absent debianBox) (SteamPath.candidatePathsLinux debianBox)
  /\ whichPath debianBox = Some "/usr/bin/steam"
  /\ SteamPath.findSteamPathSync debianBox =
       (Throws linuxNotFound, List.map Probe (SteamPath.candidatePathsLinux debianBox))
  /\ forallb (fun e => negb (isExec e)) (trace (SteamPath.findSteamPathSync debianBox)) = true.
Proof.
  split; [reflexivity |].
  split; [apply absent_all; vm_compute; reflexivity |].
  split; [vm_compute; reflexivity |].
  split; vm_compute; reflexivity.
Qed.

(** ** Strings and the field pattern *)

Lemma app_cons c (a b : string) : String c a +:+ b = String c (a +:+ b).
Proof. reflexivity. Qed.

Lemma app_nil (a : string) : "" +:+ a = a.
Proof. reflexivity. Qed.

Lemma length_app (a b : string) :
  String.length (a +:+ b) = String.length a + String.length b.
Proof.
  induction a as [| c a IH]; [reflexivity |].
  rewrite app_cons. simpl. rewrite IH. reflexivity.
Qed.

Lemma app_assoc_string (a b c : string) : (a +:+ b) +:+ c = a +:+ (b +:+ c).
Proof.
  induction a as [| x a IH]; [reflexivity |].
  rewrite !app_cons, IH. reflexivity.
Qed.

Lemma takeN_app (a b : string) : JS.takeN (String.length a) (a +:+ b) = a.
Proof.
  induction a as [| c a IH]; [destruct b; reflexivity |].
  rewrite app_cons. simpl. rewrite IH. reflexivity.
Qed.

Lemma dropN_app (a b : string) : JS.dropN (String.length a) (a +:+ b) = b.
Proof.
  induction a as [| c a IH]; [reflexivity |].
  rewrite app_cons. simpl. exact IH.
Qed.

Lemma startsWith_app (p b : string) : JS.startsWith (p +:+ b) p = true.
Proof.
  induction p as [| c p IH]; [reflexivity |].
  rewrite app_cons. simpl. rewrite Ascii.eqb_refl. exact IH.
Qed.

Lemma startsWith_split (s p : string) :
  JS.startsWith s p = true -> s = p +:+ JS.dropN (String.length p) s.
Proof.
  revert s. induction p as [| c p IH]; intros s; [reflexivity |].
  destruct s as [| b s]; [discriminate |]. simpl.
  destruct (Ascii.eqb_spec c b) as [-> | _]; [| discriminate].
  intros H. rewrite app_cons, <- (IH s H). reflexivity.
Qed.

Lemma takeWhile_dropWhile f (s : string) : JS.takeWhile f s +:+ JS.dropWhile f s = s.
Proof.
  induction s as [| c s IH]; [reflexivity |]. simpl.
  destruct (f c); [rewrite app_cons, IH |]; reflexivity.
Qed.

Lemma dropN_takeWhile f (s : string) :
  JS.dropN (String.length (JS.takeWhile f s)) s = JS.dropWhile f s.
Proof.
  rewrite <- (takeWhile_dropWhile f s) at 2. apply dropN_app.
Qed.

Lemma dropWhile_stop f (s : string) c r :
  f c = false -> JS.dropWhile f (JS.takeWhile f s +:+ String c r) = String c r.
Proof.
  intros Hc. induction s as [| a s IH]; cbn [JS.takeWhile].
  - rewrite app_nil. simpl. rewrite Hc. reflexivity.
  - destruct (f a) eqn:Ea.
    + rewrite app_cons. simpl. rewrite Ea. exact IH.
    + rewrite app_nil. simpl. rewrite Hc. reflexivity.
Qed.

Lemma takeWhile_stop f (s : string) c r :
  f c = false -> JS.takeWhile f (JS.takeWhile f s +:+ String c r) = JS.takeWhile f s.
Proof.
  intros Hc. induction s as [| a s IH]; cbn [JS.takeWhile].
  - rewrite app_nil. simpl. rewrite Hc. reflexivity.
  - destruct (f a) eqn:Ea.
    + rewrite app_cons. simpl. rewrite Ea, IH. reflexivity.
    + rewrite app_nil. simpl. rewrite Hc. reflexivity.
Qed.

Lemma quote_not_space c : JS.isQuote c = true -> JS.isWhiteSpace c = false.
Proof.
  unfold JS.isQuote, JS.isWhiteSpace. intros H. apply N.eqb_eq in H. rewrite H. reflexivity.
Qed.

(** Matching the text of a match again gives the same capture. *)
Lemma fieldAt_matched key s v rest :
  JS.fieldAt key s = Some (v, rest) ->
  JS.fieldAt key (JS.matched s rest) = Some (v, "").
Proof.
  unfold JS.fieldAt. set (lit := JS.DQ +:+ key +:+ JS.DQ).
  destruct (JS.startsWith s lit) eqn:Hs; [| discriminate].
  pose proof (startsWith_split _ _ Hs) as Hsplit.
  set (s1 := JS.dropN (String.length lit) s) in *.
  destruct (JS.dropWhile JS.isWhiteSpace s1) as [| q r] eqn:Hw; [discriminate |].
  destruct (JS.isQuote q) eqn:Hq; [| discriminate].
  set (nq := fun c => negb (JS.isQuote c)).
  destruct (JS.dropN (String.length (JS.takeWhile nq r)) r) as [| q' r'] eqn:Hd;
    [discriminate |].
  destruct (JS.isQuote q' && JS.truthy (JS.takeWhile nq r)) eqn:Hv; [| discriminate].
  intros H. injection H as <- <-.
  apply andb_true_iff in Hv as [Hq' Ht].
  rewrite dropN_takeWhile in Hd.
  pose proof (takeWhile_dropWhile nq r) as Hr. rewrite Hd in Hr.
  pose proof (takeWhile_dropWhile JS.isWhiteSpace s1) as Hs1. rewrite Hw in Hs1.
  set (W := JS.takeWhile JS.isWhiteSpace s1) in *.
  set (V := JS.takeWhile nq r) in *.
  assert (Hfull : s = (lit +:+ W +:+ String q (V +:+ String q' "")) +:+ r').
  { rewrite Hsplit, <- Hs1, <- Hr.
    rewrite !app_assoc_string, !app_cons, !app_assoc_string, !app_cons, app_nil.
    reflexivity. }
  assert (Hm : JS.matched s r' = lit +:+ W +:+ String q (V +:+ String q' "")).
  { unfold JS.matched. rewrite Hfull at 1 2.
    rewrite length_app, Nat.add_sub. apply takeN_app. }
  rewrite Hm, startsWith_app, dropN_app.
  unfold W. rewrite (dropWhile_stop _ _ _ _ (quote_not_space _ Hq)), Hq.
  assert (Hnq : nq q' = false) by (unfold nq; rewrite Hq'; reflexivity).
  unfold V. rewrite (takeWhile_stop nq r q' "" Hnq), dropN_app, Hq'.
  fold V. rewrite Ht. reflexivity.
Qed.

Lemma matchField_matched key s v rest :
  JS.fieldAt key s = Some (v, rest) ->
  JS.matchField key (JS.matched s rest) = Some v.
Proof.
  intros H. apply fieldAt_matched in H.
  destruct (JS.matched s rest); cbn [JS.matchField]; rewrite H; reflexivity.
Qed.

(** The two-step extraction of the sources, all matches and then the
    capture of each, yields the captures of the matches. *)
Lemma rematch_all key s : forall skip,
  omap (JS.matchField key) (JS.matchAllField_go key skip s) = JS.fieldValues_go key skip s.
Proof.
  induction s as [| c s IH]; intros skip; [reflexivity |].
  cbn [JS.matchAllField_go JS.fieldValues_go].
  destruct skip as [| k]; [| apply IH].
  destruct (JS.fieldAt key (String c s)) as [[v rest] |] eqn:E; [| apply IH].
  cbn [omap list_omap]. rewrite (matchField_matched _ _ _ _ E), IH. reflexivity.
Qed.

(** ** Manifests *)

Lemma fieldAt_truthy key s v r :
  JS.fieldAt key s = Some (v, r) -> JS.truthy v = true.
Proof.
  unfold JS.fieldAt.
  destruct (JS.startsWith s _); [| discriminate].
  destruct (JS.dropWhile _ _) as [| c r0]; [discriminate |].
  destruct (JS.isQuote c); [| discriminate].
  destruct (JS.dropN _ r0) as [| c' r']; [discriminate |].
  destruct (JS.isQuote c' && JS.truthy _) eqn:E; [| discriminate].
  intros H. injection H as <- _. apply andb_true_iff in E. apply E.
Qed.

Lemma matchField_truthy key s v :
  JS.matchField key s = Some v -> JS.truthy v = true.
Proof.
  induction s as [| c s IH]; simpl.
  - discriminate.
  - destruct (JS.fieldAt key (String c s)) as [[v' r] |] eqn:E; [| exact IH].
    intros H. injection H as <-. eapply fieldAt_truthy, E.
Qed.

Lemma present_matchField key s : JS.present (JS.matchField key s) = JS.matchField key s.
Proof.
  destruct (JS.matchField key s) as [v |] eqn:E; [| reflexivity].
  simpl. rewrite (matchField_truthy _ _ _ E). reflexivity.
Qed.

Section ManifestFacts.
Variable h : Host.

(** [parseManifest] always returns; these are the fields of what it
    returns. *)
Lemma parseManifest_fields folder id content :
  exists app,
    result (SteamApps.parseManifest h folder id content) = Returns app
    /\ appId app = id
    /\ name app = JS.matchField "name" content
    /\ sizeOnDisk app = option_map JS.parseInt (JS.matchField "SizeOnDisk" content)
    /\ lastUpdated app =
         option_map (fun v => JS.newDate (JS.times (JS.parseInt v) 1000))
           (JS.matchField "LastUpdated" content)
    /\ (forall d, JS.matchField "installdir" content = Some d ->
          isInstalled app =
            JS.truthy (path_join h [folder; "common"; d])
              && fs_exists h (path_join h [folder; "common"; d])
          /\ installDir app =
               (if isInstalled app then Some (path_join h [folder; "common"; d]) else None))
    /\ (JS.matchField "installdir" content = None ->
          isInstalled app = false /\ installDir app = None).
Proof.
  unfold SteamApps.parseManifest. rewrite !present_matchField.
  destruct (JS.matchField "installdir" content) as [d |]; simpl.
  - destruct (JS.truthy (path_join h [folder; "common"; d])) eqn:Et; simpl.
    all: eexists; (split; [reflexivity |]); simpl.
    all: repeat split; try reflexivity; try discriminate.
    all: intros; simplify_eq; try rewrite Et; reflexivity.
  - eexists. split; [reflexivity |]. simpl.
    repeat split; try reflexivity; discriminate.
Qed.

Lemma parseManifest_returns folder id content :
  exists app, result (SteamApps.parseManifest h folder id content) = Returns app.
Proof.
  destruct (parseManifest_fields folder id content) as (app & H & _). eauto.
Qed.

Lemma lookIn_unreadable id g :
  readableManifest h g id = None ->
  result (SteamApps.lookIn h id g) = Returns None.
Proof.
  unfold readableManifest, SteamApps.lookIn, existsSync, readFileSync, ask.
  destruct (fs_exists h (SteamApps.manifestPath h g id)); simpl; [| reflexivity].
  destruct (fs_readFile h (SteamApps.manifestPath h g id)); [discriminate | reflexivity].
Qed.

Lemma lookIn_readable id f content :
  readableManifest h f id = Some content ->
  SteamApps.lookIn h id f =
    (match result (SteamApps.parseManifest h f id content) with
     | Returns app => Returns (Some app)
     | Throws _ => Returns None
     end,
     Probe (SteamApps.manifestPath h f id) :: ReadFile (SteamApps.manifestPath h f id)
       :: trace (SteamApps.parseManifest h f id content)).
Proof.
  unfold readableManifest, SteamApps.lookIn, existsSync, readFileSync, ask.
  destruct (fs_exists h (SteamApps.manifestPath h f id)); [| discriminate].
  destruct (fs_readFile h (SteamApps.manifestPath h f id)) as [c | msg]; [| discriminate].
  intros H. injection H as <-. simpl.
  destruct (parseManifest_returns f id c) as [app Happ].
  destruct (SteamApps.parseManifest h f id c) as [r t]. simpl in *. subst r.
  simpl. rewrite !app_nil_r. reflexivity.
Qed.

Lemma find_cons_unreadable id g rest sp :
  readableManifest h g id = None ->
  SteamApps.findSteamAppInLibrariesSync h id (g :: rest) sp =
    (result (SteamApps.findSteamAppInLibrariesSync h id rest sp),
     trace (SteamApps.lookIn h id g)
       ++ trace (SteamApps.findSteamAppInLibrariesSync h id rest sp)).
Proof.
  intros Hg. simpl. pose proof (lookIn_unreadable id g Hg) as Hl.
  destruct (SteamApps.lookIn h id g) as [r t]. simpl in Hl. subst r.
  rewrite bind_returns. reflexivity.
Qed.

Lemma find_cons_readable id f rest sp content :
  readableManifest h f id = Some content ->
  SteamApps.findSteamAppInLibrariesSync h id (f :: rest) sp =
    (result (SteamApps.parseManifest h f id content),
     Probe (SteamApps.manifestPath h f id) :: ReadFile (SteamApps.manifestPath h f id)
       :: trace (SteamApps.parseManifest h f id content)).
Proof.
  intros Hf. simpl. rewrite (lookIn_readable _ _ _ Hf).
  destruct (parseManifest_returns f id content) as [app Happ].
  rewrite Happ, bind_returns. simpl. rewrite app_nil_r. reflexivity.
Qed.

Lemma find_first_readable id before f after sp content :
  Forall (fun g => readableManifest h g id = None) before ->
  readableManifest h f id = Some content ->
  result (SteamApps.findSteamAppInLibrariesSync h id (before ++ f :: after) sp)
    = result (SteamApps.parseManifest h f id content)
  /\ SteamApps.findSteamAppInLibrariesSync h id (before ++ f :: after) sp
    = SteamApps.findSteamAppInLibrariesSync h id (before ++ [f]) sp.
Proof.
  intros Hb Hf. induction before as [| g before IH].
  - cbn [app]. rewrite !(find_cons_readable _ _ _ _ _ Hf). split; reflexivity.
  - inversion Hb as [| x l Hg Hrest]; subst. destruct (IH Hrest) as [IH1 IH2].
    cbn [app]. rewrite !(find_cons_unreadable _ _ _ _ Hg), IH2. split; [| reflexivity].
    simpl. rewrite <- IH1, IH2. reflexivity.
Qed.

Lemma find_none_readable id folders sp :
  Forall (fun g => readableManifest h g id = None) folders ->
  result (SteamApps.findSteamAppInLibrariesSync h id folders sp) = Throws (appNotFound id).
Proof.
  induction folders as [| g folders IH]; intros Hall.
  - reflexivity.
  - inversion Hall as [| x l Hg Hrest]; subst.
    rewrite (find_cons_unreadable _ _ _ _ Hg). simpl. apply IH, Hrest.
Qed.

Lemma find_throws_unreadable id folders sp e :
  result (SteamApps.findSteamAppInLibrariesSync h id folders sp) = Throws e ->
  e = appNotFound id /\ Forall (fun g => readableManifest h g id = None) folders.
Proof.
  induction folders as [| g folders IH].
  - simpl. intros H. injection H as <-. split; [reflexivity | constructor].
  - destruct (readableManifest h g id) as [c |] eqn:Hg.
    + rewrite (find_cons_readable _ _ _ _ _ Hg). simpl.
      destruct (parseManifest_returns g id c) as [app Happ]. rewrite Happ. discriminate.
    + rewrite (find_cons_unreadable _ _ _ _ Hg). simpl. intros H.
      destruct (IH H) as [He Hall]. split; [exact He | constructor; assumption].
Qed.
End ManifestFacts.

(** C2, as the code has it.  Locating one app throws
    SteamAppNotFoundError, whose message carries the appId, exactly when
    no folder of the list holds a manifest of that app that exists and can
    be read; it throws nothing else.  When some folder does, the app
    returned is the one built from the manifest of the first such folder,
    and the run is the run on the list cut after that folder: no later
    folder is examined.  A folder whose manifest exists but cannot be read
    is passed over. *)
Theorem app_lookup_first_readable (h : Host) (id sp : string) (folders : list string) :
  (result (SteamApps.findSteamAppInLibrariesSync h id folders sp) = Throws (appNotFound id)
   <-> Forall (fun g => readableManifest h g id = None) folders)
  /\ (forall e,
        result (SteamApps.findSteamAppInLibrariesSync h id folders sp) = Throws e ->
        e = appNotFound id)
  /\ (forall before f after content,
        folders = before ++ f :: after ->
        Forall (fun g => readableManifest h g id = None) before ->
        readableManifest h f id = Some content ->
        (exists app,
            result (SteamApps.findSteamAppInLibrariesSync h id folders sp) = Returns app
            /\ result (SteamApps.parseManifest h f id content) = Returns app)
        /\ SteamApps.findSteamAppInLibrariesSync h id folders sp
           = SteamApps.findSteamAppInLibrariesSync h id (before ++ [f]) sp).
Proof.
  split; [split |]; [| | split].
  - intros H. apply (find_throws_unreadable h _ _ _ _ H).
  - apply find_none_readable.
  - intros e H. apply (find_throws_unreadable h _ _ _ _ H).
  - intros before f after content -> Hb Hf.
    destruct (find_first_readable h id before f after sp content Hb Hf) as [H1 H2].
    split; [| exact H2].
    destruct (parseManifest_returns h f id content) as [app Happ].
    exists app. split; [rewrite H1 |]; exact Happ.
Qed.

Lemma app_lookup_first_readable_witness :
  (exists app,
      result (SteamApps.findSteamAppInLibrariesSync lockedBox "440" ["/lib"; "/lib2"] "")
        = Returns app
      /\ result (SteamApps.parseManifest lockedBox "/lib2" "440"
                   (Sample.field "name" "Team Fortress 2")) = Returns app)
  /\ SteamApps.findSteamAppInLibrariesSync lockedBox "440" ["/lib"; "/lib2"] ""
     = SteamApps.findSteamAppInLibrariesSync lockedBox "440" (["/lib"] ++ ["/lib2"]) "".
Proof.
  apply (proj2 (proj2 (app_lookup_first_readable lockedBox "440" "" ["/lib"; "/lib2"]))
           ["/lib"] "/lib2" [] (Sample.field "name" "Team Fortress 2")).
  - reflexivity.
  - constructor; [vm_compute; reflexivity | constructor].
  - vm_compute. reflexivity.
Defined.

(** C2 as stated fails where a manifest exists and cannot be read: the
    lookup throws although the folder holds the file, and with a second
    folder the app is built from the second manifest, not from the
    first. *)
Lemma app_lookup_counterexample :
  fs_exists lockedBox (SteamApps.manifestPath lockedBox "/lib" "440") = true
  /\ result (SteamApps.findSteamAppInLibrariesSync lockedBox "440" ["/lib"] "")
     = Throws (appNotFound "440")
  /\ result (SteamApps.findSteamAppInLibrariesSync lockedBox "440" ["/lib"; "/lib2"] "")
     = result (SteamApps.parseManifest lockedBox "/lib2" "440"
                 (Sample.field "name" "Team Fortress 2")).
Proof.
  split; [| split]; vm_compute; reflexivity.
Qed.

(** C4.  When the manifest the lookup reads declares an installdir and
    the directory [folder/common/installdir] does not exist, the app
    returned has isInstalled = false and no installDir. *)
Theorem missing_install_dir_not_installed
    (h : Host) (id sp : string) (before : list string) (f : string) (after : list string)
    (content d : string) :
  Forall (fun g => readableManifest h g id = None) before ->
  readableManifest h f id = Some content ->
  JS.matchField "installdir" content = Some d ->
  fs_exists h (path_join h [f; "common"; d]) = false ->
  exists app,
    result (SteamApps.findSteamAppInLibrariesSync h id (before ++ f :: after) sp) = Returns app
    /\ isInstalled app = false
    /\ installDir app = None.
Proof.
  intros Hb Hf Hd He.
  destruct (find_first_readable h id before f after sp content Hb Hf) as [H1 _].
  destruct (parseManifest_fields h f id content) as (app & Happ & _ & _ & _ & _ & Hdir & _).
  destruct (Hdir d Hd) as [Hi Hdir'].
  exists app. rewrite H1. split; [exact Happ |].
  rewrite He, andb_false_r in Hi. rewrite Hi in Hdir'. split; assumption.
Qed.

Lemma missing_install_dir_not_installed_witness :
  exists app,
    result (SteamApps.findSteamAppInLibrariesSync oddBox "440" ([] ++ "/lib" :: []) "")
      = Returns app
    /\ isInstalled app = false
    /\ installDir app = None.
Proof.
  apply (missing_install_dir_not_installed oddBox "440" "" [] "/lib" []
           oddManifest "Team Fortress 2").
  - constructor.
  - vm_compute. reflexivity.
  - vm_compute. reflexivity.
  - vm_compute. reflexivity.
Defined.

(** C5, as the code has it.  Whatever the SizeOnDisk value extracted, the
    lookup does not fail and the app returned has a sizeOnDisk, which is
    what [parseInt] makes of the value: NaN when it finds no number.
    Whatever the LastUpdated value extracted, the app has a lastUpdated,
    the date made of [parseInt] of the value times 1000: the Invalid Date
    when [parseInt] finds no number.  The two fields are absent when the
    manifest has no such field. *)
Theorem non_numeric_fields_become_NaN
    (h : Host) (id sp : string) (before : list string) (f : string) (after : list string)
    (content : string) :
  Forall (fun g => readableManifest h g id = None) before ->
  readableManifest h f id = Some content ->
  exists app,
    result (SteamApps.findSteamAppInLibrariesSync h id (before ++ f :: after) sp) = Returns app
    /\ (forall v, JS.matchField "SizeOnDisk" content = Some v ->
          sizeOnDisk app = Some (JS.parseInt v)
          /\ (JS.parseInt v = JS.NaN -> sizeOnDisk app = Some JS.NaN))
    /\ (forall v, JS.matchField "LastUpdated" content = Some v ->
          lastUpdated app = Some (JS.newDate (JS.times (JS.parseInt v) 1000))
          /\ (JS.parseInt v = JS.NaN -> lastUpdated app = Some (JS.mkDate JS.NaN)))
    /\ (JS.matchField "SizeOnDisk" content = None -> sizeOnDisk app = None)
    /\ (JS.matchField "LastUpdated" content = None -> lastUpdated app = None).
Proof.
  intros Hb Hf.
  destruct (find_first_readable h id before f after sp content Hb Hf) as [H1 _].
  destruct (parseManifest_fields h f id content) as (app & Happ & _ & _ & Hs & Hl & _).
  exists app. rewrite H1. split; [exact Happ |].
  split; [| split; [| split]].
  - intros v Hv. rewrite Hs, Hv. simpl. split; [reflexivity |].
    intros Hn. rewrite Hn. reflexivity.
  - intros v Hv. rewrite Hl, Hv. simpl. split; [reflexivity |].
    intros Hn. rewrite Hn. reflexivity.
  - intros Hv. rewrite Hs, Hv. reflexivity.
  - intros Hv. rewrite Hl, Hv. reflexivity.
Qed.

Lemma non_numeric_fields_become_NaN_witness :
  exists app,
    result (SteamApps.findSteamAppInLibrariesSync oddBox "440" ([] ++ "/lib" :: []) "")
      = Returns app
    /\ sizeOnDisk app = Some JS.NaN
    /\ lastUpdated app = Some (JS.mkDate JS.NaN).
Proof.
  destruct (non_numeric_fields_become_NaN oddBox "440" "" [] "/lib" [] oddManifest)
    as (app & Happ & Hs & Hl & _).
  - constructor.
  - vm_compute. reflexivity.
  - exists app. split; [exact Happ |]. split.
    + apply (proj2 (Hs "unknown" eq_refl)). vm_compute. reflexivity.
    + apply (proj2 (Hl "never" eq_refl)). vm_compute. reflexivity.
Defined.

(** C5 as stated fails: this manifest gives SizeOnDisk and LastUpdated
    values that are not numbers, and both fields of the app returned are
    present. *)
Lemma non_numeric_fields_counterexample :
  JS.matchField "SizeOnDisk" oddManifest = Some "unknown"
  /\ JS.matchField "LastUpdated" oddManifest = Some "never"
  /\ exists app,
       result (SteamApps.findSteamAppInLibrariesSync oddBox "440" ["/lib"] "") = Returns app
       /\ sizeOnDisk app = Some JS.NaN
       /\ lastUpdated app = Some (JS.mkDate JS.NaN)
       /\ sizeOnDisk app <> None
       /\ lastUpdated app <> None.
Proof.
  split; [vm_compute; reflexivity |].
  split; [vm_compute; reflexivity |].
  eexists. split; [vm_compute; reflexivity |].
  simpl. repeat split; discriminate.
Qed.

(** ** The inventory *)

Section InventoryFacts.
Variable h : Host.
Local Abbreviation isWin := (String.eqb (os_platform h) "win32").

Lemma keysRecorded_push st app dir :
  keysRecorded h st ->
  JS.present (installDir app) = Some dir ->
  SteamApps.dedupKey h isWin (appId app) dir ∉ st.2 ->
  keysRecorded h (st.1 ++ [app], {[SteamApps.dedupKey h isWin (appId app) dir]} ∪ st.2).
Proof.
  intros [Hnd Hall] Hdir Hfresh.
  assert (Hk : entryKey h app = Some (SteamApps.dedupKey h isWin (appId app) dir)).
  { unfold entryKey. rewrite Hdir. reflexivity. }
  split; simpl.
  - rewrite map_app. apply NoDup_app. split; [exact Hnd |]. split.
    + intros x Hx Hx'. simpl in Hx'. apply list_elem_of_singleton in Hx'. subst x.
      apply list_elem_of_fmap in Hx as (a & Ha & Hin).
      rewrite Forall_forall in Hall. destruct (Hall a Hin) as (k & Hka & Hks).
      rewrite Hk in Ha. rewrite <- Ha in Hka. injection Hka as <-. contradiction.
    + simpl. apply NoDup_singleton.
  - apply Forall_app. split.
    + eapply Forall_impl; [exact Hall |]. intros a (k & Hka & Hks).
      exists k. split; [exact Hka | set_solver].
    + constructor; [| constructor]. eexists. split; [exact Hk | set_solver].
Qed.

Lemma visitFile_keeps folder st file :
  keysRecorded h st ->
  exists st', result (SteamApps.visitFile h isWin folder st file) = Returns st'
              /\ keysRecorded h st'.
Proof.
  intros Hst. unfold SteamApps.visitFile.
  destruct (JS.startsWith file "appmanifest_" && JS.endsWith file ".acf");
    [| exists st; split; [reflexivity | exact Hst]].
  destruct (JS.present (JS.matchManifestName file)) as [id |];
    [| exists st; split; [reflexivity | exact Hst]].
  destruct (SteamApps.findSteamAppInLibrariesSync h id [folder] "") as [[app | e] t];
    [| exists st; split; [reflexivity | exact Hst]].
  rewrite bind_returns.
  destruct (isInstalled app); [| exists st; split; [reflexivity | exact Hst]].
  destruct (JS.present (installDir app)) as [dir |] eqn:Hdir;
    [| exists st; split; [reflexivity | exact Hst]].
  destruct (decide (SteamApps.dedupKey h isWin (appId app) dir ∈ st.2)) as [Hin | Hout].
  - exists st; split; [reflexivity | exact Hst].
  - eexists. split; [reflexivity |]. apply keysRecorded_push; assumption.
Qed.

Lemma visitFiles_keeps folder files : forall st,
  keysRecorded h st ->
  exists st', result (SteamApps.visitFiles h isWin folder st files) = Returns st'
              /\ keysRecorded h st'.
Proof.
  induction files as [| file files IH]; intros st Hst.
  - exists st. split; [reflexivity | exact Hst].
  - simpl. destruct (visitFile_keeps folder st file Hst) as (st1 & H1 & Hst1).
    destruct (SteamApps.visitFile h isWin folder st file) as [r t]. simpl in H1. subst r.
    rewrite bind_returns. simpl. apply IH, Hst1.
Qed.

Lemma visitFolder_keeps st folder :
  keysRecorded h st ->
  exists st', result (SteamApps.visitFolder h isWin st folder) = Returns st'
              /\ keysRecorded h st'.
Proof.
  intros Hst. unfold SteamApps.visitFolder, readdirSync, ask.
  destruct (fs_readdir h folder) as [files | msg].
  - rewrite bind_returns.
    destruct (visitFiles_keeps folder files st Hst) as (st1 & H1 & Hst1).
    destruct (SteamApps.visitFiles h isWin folder st files) as [r t]. simpl in *. subst r.
    exists st1. split; [reflexivity | exact Hst1].
  - exists st. split; [reflexivity | exact Hst].
Qed.

Lemma visitFolders_keeps folders : forall st,
  keysRecorded h st ->
  exists st', result (SteamApps.visitFolders h isWin st folders) = Returns st'
              /\ keysRecorded h st'.
Proof.
  induction folders as [| folder folders IH]; intros st Hst.
  - exists st. split; [reflexivity | exact Hst].
  - simpl. destruct (visitFolder_keeps st folder Hst) as (st1 & H1 & Hst1).
    destruct (SteamApps.visitFolder h isWin st folder) as [r t]. simpl in H1. subst r.
    rewrite bind_returns. simpl. apply IH, Hst1.
Qed.

Lemma keysRecorded_empty : keysRecorded h ([], ∅).
Proof. split; simpl; constructor. Qed.
End InventoryFacts.

(** The inventory of the single-file index.ts carries only the list of
    apps, and each step appends to it. *)
Section SingleFileInventoryFacts.
Variable h : Host.

Lemma single_file_visitFile_appends folder file apps :
  exists more,
    result (SingleFileApps.visitFile h folder [] file) = Returns more
    /\ result (SingleFileApps.visitFile h folder apps file) = Returns (apps ++ more).
Proof.
  unfold SingleFileApps.visitFile.
  destruct (JS.startsWith file "appmanifest_" && JS.endsWith file ".acf");
    [| exists []; rewrite app_nil_r; split; reflexivity].
  destruct (JS.present (JS.matchManifestName file)) as [id |];
    [| exists []; rewrite app_nil_r; split; reflexivity].
  destruct (SteamApps.findSteamAppInLibrariesSync h id [folder] "") as [[app | e] t];
    [| exists []; rewrite app_nil_r; split; reflexivity].
  destruct (isInstalled app) eqn:Ei.
  - exists [app]. split; simpl; rewrite Ei; reflexivity.
  - exists []. rewrite app_nil_r. split; simpl; rewrite Ei; reflexivity.
Qed.

Lemma single_file_visitFiles_appends folder files : forall apps,
  exists more,
    result (SingleFileApps.visitFiles h folder [] files) = Returns more
    /\ result (SingleFileApps.visitFiles h folder apps files) = Returns (apps ++ more).
Proof.
  induction files as [| file files IH]; intros apps.
  - exists []. rewrite app_nil_r. split; reflexivity.
  - destruct (single_file_visitFile_appends folder file apps) as (m1 & H0 & H1).
    destruct (IH m1) as (ma & Ha0 & Ha1). destruct (IH (apps ++ m1)) as (mb & Hb0 & Hb1).
    rewrite Ha0 in Hb0. injection Hb0 as <-.
    exists (m1 ++ ma). simpl. split.
    + erewrite result_bind; [| exact H0]. exact Ha1.
    + erewrite result_bind; [| exact H1]. rewrite Hb1, app_assoc. reflexivity.
Qed.

Lemma single_file_visitFolder_appends folder apps :
  exists more,
    result (SingleFileApps.visitFolder h [] folder) = Returns more
    /\ result (SingleFileApps.visitFolder h apps folder) = Returns (apps ++ more).
Proof.
  unfold SingleFileApps.visitFolder, readdirSync, ask.
  destruct (fs_readdir h folder) as [files | msg].
  - destruct (single_file_visitFiles_appends folder files apps) as (more & H0 & H1).
    exists more. split; apply result_try_returns; (erewrite result_bind; [| reflexivity]);
      assumption.
  - exists []. rewrite app_nil_r. split; reflexivity.
Qed.

Lemma single_file_visitFolders_appends folders : forall apps,
  exists more,
    result (SingleFileApps.visitFolders h [] folders) = Returns more
    /\ result (SingleFileApps.visitFolders h apps folders) = Returns (apps ++ more).
Proof.
  induction folders as [| folder folders IH]; intros apps.
  - exists []. rewrite app_nil_r. split; reflexivity.
  - destruct (single_file_visitFolder_appends folder apps) as (m1 & H0 & H1).
    destruct (IH m1) as (ma & Ha0 & Ha1). destruct (IH (apps ++ m1)) as (mb & Hb0 & Hb1).
    rewrite Ha0 in Hb0. injection Hb0 as <-.
    exists (m1 ++ ma). simpl. split.
    + erewrite result_bind; [| exact H0]. exact Ha1.
    + erewrite result_bind; [| exact H1]. rewrite Hb1, app_assoc. reflexivity.
Qed.

Lemma single_file_visitFolders_app l1 : forall l2 apps,
  exists mid,
    result (SingleFileApps.visitFolders h apps l1) = Returns mid
    /\ result (SingleFileApps.visitFolders h apps (l1 ++ l2))
       = result (SingleFileApps.visitFolders h mid l2).
Proof.
  induction l1 as [| f l1 IH]; intros l2 apps.
  - exists apps. split; reflexivity.
  - destruct (single_file_visitFolder_appends f apps) as (m1 & _ & H1).
    destruct (IH l2 (apps ++ m1)) as (mid & Hm & Hr).
    exists mid. simpl. split; (erewrite result_bind; [| exact H1]); assumption.
Qed.

Lemma single_file_inventory_app l1 l2 :
  exists a1 a2,
    result (SingleFileApps.getInstalledSteamAppsFromLibrariesSync h l1) = Returns a1
    /\ result (SingleFileApps.getInstalledSteamAppsFromLibrariesSync h l2) = Returns a2
    /\ result (SingleFileApps.getInstalledSteamAppsFromLibrariesSync h (l1 ++ l2))
       = Returns (a1 ++ a2).
Proof.
  unfold SingleFileApps.getInstalledSteamAppsFromLibrariesSync.
  destruct (single_file_visitFolders_app l1 l2 []) as (a1 & H1 & H12).
  destruct (single_file_visitFolders_appends l2 a1) as (a2 & H2 & H2').
  exists a1, a2. split; [exact H1 |]. split; [exact H2 |].
  rewrite H12. exact H2'.
Qed.
End SingleFileInventoryFacts.

(** C3, as the two revisions have it.  The inventory of steam-apps.ts
    always returns, every entry it returns has a dedup key (its appId and
    normalized install directory, lower-cased on win32 only), and no two
    entries share one, whatever the folders and the file system.  The
    inventory of the single-file index.ts keeps no keys: what it returns
    for two lists of folders one after the other is what it returns for
    the first followed by what it returns for the second. *)
Theorem inventory_keys_per_revision (h : Host) (folders : list string) :
  (exists apps,
      result (SteamApps.getInstalledSteamAppsFromLibrariesSync h folders) = Returns apps
      /\ Forall (fun a => is_Some (entryKey h a)) apps
      /\ NoDup (List.map (entryKey h) apps))
  /\ (forall l1 l2, folders = l1 ++ l2 ->
      exists a1 a2,
        result (SingleFileApps.getInstalledSteamAppsFromLibrariesSync h l1) = Returns a1
        /\ result (SingleFileApps.getInstalledSteamAppsFromLibrariesSync h l2) = Returns a2
        /\ result (SingleFileApps.getInstalledSteamAppsFromLibrariesSync h folders)
           = Returns (a1 ++ a2)).
Proof.
  split.
  - unfold SteamApps.getInstalledSteamAppsFromLibrariesSync.
    destruct (visitFolders_keeps h folders _ (keysRecorded_empty h)) as (st & Hr & Hnd & Hall).
    exists st.1. split; [erewrite result_bind; [reflexivity | exact Hr] |].
    split; [| exact Hnd].
    eapply Forall_impl; [exact Hall |]. intros a (k & Hk & _). rewrite Hk. eauto.
  - intros l1 l2 ->. apply single_file_inventory_app.
Qed.

Lemma inventory_keys_per_revision_witness :
  exists a1 a2,
    result (SingleFileApps.getInstalledSteamAppsFromLibrariesSync twinBox ["D:\Games\steamapps"])
      = Returns a1
    /\ result (SingleFileApps.getInstalledSteamAppsFromLibrariesSync twinBox ["d:\games\steamapps"])
      = Returns a2
    /\ result (SingleFileApps.getInstalledSteamAppsFromLibrariesSync twinBox
                 ["D:\Games\steamapps"; "d:\games\steamapps"])
      = Returns (a1 ++ a2).
Proof.
  apply (proj2 (inventory_keys_per_revision twinBox
                  ["D:\Games\steamapps"; "d:\games\steamapps"])
           ["D:\Games\steamapps"] ["d:\games\steamapps"]).
  reflexivity.
Defined.

(** C3 as stated fails on the single-file index.ts: for one library
    listed under two spellings on win32 its inventory returns the app
    twice, and the two entries have the same dedup key. *)
Lemma inventory_keys_counterexample :
  os_platform twinBox = "win32"
  /\ exists a1 a2,
       result (SingleFileApps.getInstalledSteamAppsFromLibrariesSync twinBox
                 ["D:\Games\steamapps"; "d:\games\steamapps"]) = Returns [a1; a2]
       /\ entryKey twinBox a1 = Some "440|d:\games\steamapps\common\team fortress 2"
       /\ entryKey twinBox a2 = Some "440|d:\games\steamapps\common\team fortress 2".
Proof.
  split; [reflexivity |].
  eexists. eexists. split; [vm_compute; reflexivity |].
  split; vm_compute; reflexivity.
Qed.

(** ** The library folders *)

Section LibraryFacts.
Variable h : Host.

Lemma addLibraryPath_result acc m :
  result (SteamLibraries.addLibraryPath h acc m) =
    Returns (appendNew h acc (List.map (libraryCandidate h)
                                (omap (JS.matchField "path") [m]))).
Proof.
  unfold SteamLibraries.addLibraryPath. rewrite present_matchField. simpl.
  destruct (JS.matchField "path" m) as [v |]; simpl; [| reflexivity].
  fold (libraryCandidate h v).
  destruct (fs_exists h (libraryCandidate h v)
              && negb (bool_decide (libraryCandidate h v ∈ acc))); reflexivity.
Qed.

Lemma appendNew_app acc xs ys :
  appendNew h acc (xs ++ ys) = appendNew h (appendNew h acc xs) ys.
Proof.
  revert acc. induction xs as [| x xs IH]; intros acc; simpl; [reflexivity |].
  destruct (fs_exists h x && negb (bool_decide (x ∈ acc))); apply IH.
Qed.

Lemma addLibraryPaths_result ms : forall acc,
  result (SteamLibraries.addLibraryPaths h acc ms) =
    Returns (appendNew h acc (List.map (libraryCandidate h)
                                (omap (JS.matchField "path") ms))).
Proof.
  induction ms as [| m ms IH]; intros acc; [reflexivity |].
  cbn [SteamLibraries.addLibraryPaths].
  pose proof (addLibraryPath_result acc m) as Hm.
  destruct (SteamLibraries.addLibraryPath h acc m) as [r t]. simpl in Hm. subst r.
  unfold result in *. rewrite bind_returns. cbn [fst]. rewrite IH.
  change (m :: ms) with ([m] ++ ms).
  rewrite omap_app, map_app, appendNew_app. reflexivity.
Qed.

Lemma getLibraryFoldersSync_result root :
  result (SteamLibraries.getLibraryFoldersSync h root) = Returns (libraryFolderList h root).
Proof.
  unfold SteamLibraries.getLibraryFoldersSync, libraryFolderList, pathEntries, vdfFile.
  apply result_try_returns.
  erewrite result_bind; [| reflexivity]. fold (mainFolder h root).
  erewrite result_bind; [| reflexivity].
  destruct (fs_exists h (path_join h [root; "steamapps"; "libraryfolders.vdf"]));
    [| reflexivity].
  unfold readFileSync, ask.
  destruct (fs_readFile h (path_join h [root; "steamapps"; "libraryfolders.vdf"]))
    as [content | msg]; [| reflexivity].
  apply result_try_returns. erewrite result_bind; [| reflexivity].
  unfold JS.matchAllField, pathValues, JS.fieldValues.
  rewrite <- rematch_all.
  destruct (JS.matchAllField_go "path" 0 content) as [| m ms]; [reflexivity |].
  apply addLibraryPaths_result.
Qed.

Lemma appendNew_shape candidates : forall acc,
  NoDup acc ->
  exists extras,
    appendNew h acc candidates = acc ++ extras
    /\ sublist extras candidates
    /\ NoDup (acc ++ extras)
    /\ (forall c, c ∈ extras -> fs_exists h c = true)
    /\ (forall c, c ∈ candidates -> fs_exists h c = true -> c ∈ acc ++ extras).
Proof.
  induction candidates as [| c cs IH]; intros acc Hnd.
  - exists []. rewrite app_nil_r. repeat split; try assumption; try constructor.
    + intros c Hc. inversion Hc.
    + intros c Hc. inversion Hc.
  - simpl. destruct (fs_exists h c) eqn:Ec; simpl.
    + destruct (bool_decide (c ∈ acc)) eqn:Ed; simpl.
      * apply bool_decide_eq_true in Ed.
        destruct (IH acc Hnd) as (ex & He & Hs & Hn & Hx & Hc).
        exists ex. repeat split; try assumption.
        -- apply sublist_cons, Hs.
        -- intros c' Hc' He'. apply elem_of_cons in Hc' as [-> | Hc'].
           ++ apply elem_of_app. left. exact Ed.
           ++ apply Hc; assumption.
      * apply bool_decide_eq_false in Ed.
        assert (Hnd' : NoDup (acc ++ [c])).
        { apply NoDup_app. repeat split; try assumption.
          - intros x Hx Hx'. apply list_elem_of_singleton in Hx'. subst x. contradiction.
          - apply NoDup_singleton. }
        destruct (IH (acc ++ [c]) Hnd') as (ex & He & Hs & Hn & Hx & Hc).
        exists (c :: ex). rewrite He, <- app_assoc. simpl.
        repeat split; try reflexivity.
        -- apply sublist_skip, Hs.
        -- rewrite <- app_assoc in Hn. exact Hn.
        -- intros c' Hc'. apply elem_of_cons in Hc' as [-> | Hc']; [exact Ec | apply Hx, Hc'].
        -- intros c' Hc' He'. apply elem_of_cons in Hc' as [-> | Hc'].
           ++ apply elem_of_app. right. apply elem_of_cons. left. reflexivity.
           ++ specialize (Hc c' Hc' He'). rewrite <- app_assoc in Hc. exact Hc.
    + destruct (IH acc Hnd) as (ex & He & Hs & Hn & Hx & Hc).
      exists ex. repeat split; try assumption.
      * apply sublist_cons, Hs.
      * intros c' Hc' He'. apply elem_of_cons in Hc' as [-> | Hc'].
        -- rewrite Ec in He'. discriminate.
        -- apply Hc; assumption.
Qed.

Lemma mainFolder_NoDup root : NoDup (mainFolder h root).
Proof.
  unfold mainFolder. destruct (fs_exists h _); [apply NoDup_singleton | constructor].
Qed.
End LibraryFacts.

(** C6.  For every root and host, the library-folder list returned is the
    root's steamapps (normalized) when that directory exists, followed,
    for the path entries of the root's libraryfolders.vdf in the order of
    the file, by each entry with separators undone and steamapps appended
    that exists and is not yet in the list under string equality: the
    entries added are a subsequence of the candidates, each exists, none
    repeats or repeats the main folder, every candidate that exists is in
    the list, and nothing else is. *)
Theorem library_folder_list (h : Host) (root : string) :
  result (SteamLibraries.getLibraryFoldersSync h root) = Returns (libraryFolderList h root)
  /\ exists extras,
       libraryFolderList h root = mainFolder h root ++ extras
       /\ sublist extras (List.map (libraryCandidate h) (pathEntries h root))
       /\ NoDup (mainFolder h root ++ extras)
       /\ (forall c, c ∈ extras -> fs_exists h c = true)
       /\ (forall c, c ∈ List.map (libraryCandidate h) (pathEntries h root) ->
                     fs_exists h c = true -> c ∈ mainFolder h root ++ extras).
Proof.
  split; [apply getLibraryFoldersSync_result |].
  apply appendNew_shape, mainFolder_NoDup.
Qed.

(** ** Promises against their synchronous counterparts *)

Lemma bind_ext {A B} (m : M A) (k1 k2 : A -> M B) :
  (forall a, k1 a = k2 a) -> bind m k1 = bind m k2.
Proof. intros H. destruct m as [[a | e] t]; simpl; [rewrite H |]; reflexivity. Qed.

Lemma newPromise_settle {A} (m : M A) :
  newPromise (try_catch (bind m (fun x => ret (Resolve x))) (fun e => ret (Reject e))) = m.
Proof. destruct m as [[a | e] t]; simpl; rewrite app_nil_r; reflexivity. Qed.

Lemma newPromise_resolve {A} (m : M A) (d : A) :
  returns m ->
  newPromise (try_catch (bind m (fun x => ret (Resolve x))) (fun _ => ret (Resolve d))) = m.
Proof.
  intros [a Ha]. destruct m as [r t]. simpl in Ha. subst r. simpl.
  rewrite app_nil_r. reflexivity.
Qed.

Lemma catch_returns {A} (p : Promise A) (onRejected : Exn -> M A) :
  returns p -> catch p onRejected = p.
Proof. intros [a Ha]. destruct p as [r t]. simpl in Ha. subst r. reflexivity. Qed.

Lemma try_catch_total {A} (m : M A) (handler : Exn -> M A) :
  (forall e, returns (handler e)) -> returns (try_catch m handler).
Proof.
  intros H. destruct m as [[a | e] t]; simpl.
  - exists a. reflexivity.
  - destruct (H e) as [a Ha]. exists a. destruct (handler e) as [r t']. simpl in *. exact Ha.
Qed.

Lemma ret_returns {A} (a : A) : returns (ret a).
Proof. exists a. reflexivity. Qed.

Lemma rethrowApps_throws {A} (e : Exn) :
  @rethrowApps A e =
    (Throws (if isSteamNotFoundError e then e
             else newSteamNotFoundError
                    (Some ("Error getting installed Steam apps: " +:+ message e)) None),
     []).
Proof. unfold rethrowApps. destruct (isSteamNotFoundError e); reflexivity. Qed.

Section AsyncFacts.
Variable h : Host.

Lemma getLibraryFoldersSync_returns root :
  returns (SteamLibraries.getLibraryFoldersSync h root).
Proof. eexists. apply getLibraryFoldersSync_result. Qed.

Lemma getSteamVersionSync_returns root :
  returns (SteamVersion.getSteamVersionSync h root).
Proof. apply try_catch_total. intros e. apply ret_returns. Qed.

Lemma modular_inventory_returns folders :
  returns (SteamApps.getInstalledSteamAppsFromLibrariesSync h folders).
Proof.
  unfold SteamApps.getInstalledSteamAppsFromLibrariesSync.
  destruct (visitFolders_keeps h folders _ (keysRecorded_empty h)) as (st & Hr & _).
  exists st.1. erewrite result_bind; [reflexivity | exact Hr].
Qed.

Lemma single_file_visitFile_returns folder apps file :
  returns (SingleFileApps.visitFile h folder apps file).
Proof.
  unfold SingleFileApps.visitFile.
  destruct (JS.startsWith file "appmanifest_" && JS.endsWith file ".acf");
    [| apply ret_returns].
  apply try_catch_total. intros e. apply ret_returns.
Qed.

Lemma single_file_visitFiles_returns folder files : forall apps,
  returns (SingleFileApps.visitFiles h folder apps files).
Proof.
  induction files as [| file files IH]; intros apps; [apply ret_returns |].
  simpl. destruct (single_file_visitFile_returns folder apps file) as [apps' H'].
  destruct (IH apps') as [r Hr]. exists r. erewrite result_bind; [exact Hr | exact H'].
Qed.

Lemma single_file_visitFolders_returns folders : forall apps,
  returns (SingleFileApps.visitFolders h apps folders).
Proof.
  induction folders as [| folder folders IH]; intros apps; [apply ret_returns |].
  simpl.
  assert (H' : returns (SingleFileApps.visitFolder h apps folder)).
  { apply try_catch_total. intros e. apply ret_returns. }
  destruct H' as [apps' H']. destruct (IH apps') as [r Hr].
  exists r. erewrite result_bind; [exact Hr | exact H'].
Qed.

Lemma single_file_inventory_returns folders :
  returns (SingleFileApps.getInstalledSteamAppsFromLibrariesSync h folders).
Proof. apply single_file_visitFolders_returns. Qed.

Lemma isSteamRunning_sync : Async.isSteamRunning h = SteamProcess.isSteamRunningSync h.
Proof.
  unfold Async.isSteamRunning, SteamProcess.isSteamRunningSync.
  destruct (SteamProcess.processQuery (os_platform h)) as [command |]; [| reflexivity].
  unfold execSync, ask. destruct (child_exec h command) as [out | msg]; [| reflexivity].
  simpl. destruct (os_platform h =? "win32")%string; reflexivity.
Qed.

Lemma getLibraryFolders_sync root :
  Async.getLibraryFolders h root = SteamLibraries.getLibraryFoldersSync h root.
Proof. apply newPromise_resolve, getLibraryFoldersSync_returns. Qed.

Lemma getSteamVersion_sync root :
  Async.getSteamVersion h root = SteamVersion.getSteamVersionSync h root.
Proof. apply newPromise_resolve, getSteamVersionSync_returns. Qed.

Variable findSteamPathSync : M string.
Variable inventory : list string -> M (list SteamApp).
Variable canonical : string -> string.
Hypothesis inventory_returns : forall folders, returns (inventory folders).

Lemma findSteamPath_sync : Async.findSteamPath findSteamPathSync = findSteamPathSync.
Proof. apply newPromise_settle. Qed.

Lemma findSteamLocation_sync :
  await (findSteamLocation_with h findSteamPathSync canonical)
    = findSteamLocationSync_with h findSteamPathSync canonical.
Proof.
  unfold findSteamLocation_with, findSteamLocationSync_with, await.
  f_equal. rewrite findSteamPath_sync. apply bind_ext. intros steamPath.
  rewrite getLibraryFolders_sync, (catch_returns _ _ (getLibraryFoldersSync_returns _)).
  apply bind_ext. intros folders.
  rewrite isSteamRunning_sync. apply bind_ext. intros running.
  rewrite getSteamVersion_sync, (catch_returns _ _ (getSteamVersionSync_returns _)).
  reflexivity.
Qed.

Lemma findSteamApp_sync appId root :
  await (findSteamApp_with h findSteamPathSync appId root)
    = findSteamAppSync_with h findSteamPathSync appId root.
Proof.
  unfold findSteamApp_with, findSteamAppSync_with, await.
  f_equal. rewrite findSteamPath_sync. apply bind_ext. intros steamPath.
  rewrite getLibraryFolders_sync. reflexivity.
Qed.

Lemma getInstalledSteamApps_sync root :
  await (getInstalledSteamApps_with h findSteamPathSync inventory root)
    = getInstalledSteamAppsSync_with h findSteamPathSync inventory root.
Proof.
  unfold getInstalledSteamApps_with, getInstalledSteamAppsSync_with, await.
  rewrite findSteamPath_sync.
  destruct (actualPath root findSteamPathSync) as [[steamPath | e] t].
  - rewrite !bind_returns. rewrite getLibraryFolders_sync.
    destruct (getLibraryFoldersSync_returns steamPath) as [folders Hf].
    destruct (SteamLibraries.getLibraryFoldersSync h steamPath) as [r t1].
    simpl in Hf. subst r. rewrite !bind_returns. cbn [fst snd].
    unfold Async.getInstalledSteamAppsFromLibraries.
    rewrite (newPromise_resolve _ _ (inventory_returns folders)).
    destruct (inventory_returns folders) as [apps Ha].
    destruct (inventory folders) as [r t2]. simpl in Ha. subst r.
    simpl. rewrite !app_nil_r, <- ?app_assoc. reflexivity.
  - simpl. rewrite !rethrowApps_throws. reflexivity.
Qed.
End AsyncFacts.

(** C9.  On one host, awaiting each promise-returning public operation
    gives what its synchronous counterpart gives: the same value or the
    same error, after the same queries.  This holds for the index.ts over
    the modules and for the single-file index.ts. *)
Theorem sync_matches_async (h : Host) (appId : string) (root : option string) :
  (await (Index.findSteamLocation h) = Index.findSteamLocationSync h
   /\ await (Index.findSteamApp h appId root) = Index.findSteamAppSync h appId root
   /\ await (Index.getInstalledSteamApps h root) = Index.getInstalledSteamAppsSync h root
   /\ await (Index.isSteamRunning h) = Index.isSteamRunningSync h)
  /\ (await (SingleFileIndex.findSteamLocation h) = SingleFileIndex.findSteamLocationSync h
      /\ await (SingleFileIndex.findSteamApp h appId root)
         = SingleFileIndex.findSteamAppSync h appId root
      /\ await (SingleFileIndex.getInstalledSteamApps h root)
         = SingleFileIndex.getInstalledSteamAppsSync h root
      /\ await (SingleFileIndex.isSteamRunning h) = SingleFileIndex.isSteamRunningSync h).
Proof.
  split; repeat split.
  - apply findSteamLocation_sync.
  - apply findSteamApp_sync.
  - apply getInstalledSteamApps_sync, modular_inventory_returns.
  - apply isSteamRunning_sync.
  - apply findSteamLocation_sync.
  - apply findSteamApp_sync.
  - apply getInstalledSteamApps_sync, single_file_inventory_returns.
  - apply isSteamRunning_sync.
Qed.

(** ** A root supplied by the caller *)

Lemma bind_ret_l {A B} (a : A) (k : A -> M B) : bind (ret a) k = k a.
Proof. unfold bind, ret. destruct (k a); reflexivity. Qed.

Lemma try_rethrowApp {A} (m : M A) (id : string) :
  (forall e, result m = Throws e ->
             isSteamAppNotFoundError e || isSteamNotFoundError e = true) ->
  try_catch m (rethrowApp id) = m.
Proof.
  intros H. destruct m as [[a | e] t]; [reflexivity |].
  simpl. unfold rethrowApp. rewrite (H e eq_refl). simpl. rewrite app_nil_r. reflexivity.
Qed.

Section SuppliedRoot.
Variable h : Host.
Variable findSteamPathSync : M string.

(** The lookup below a root already known. *)
Lemma lookup_throws_appNotFound appId root e :
  result (bind (SteamLibraries.getLibraryFoldersSync h root)
            (fun folders => SteamApps.findSteamAppInLibrariesSync h appId folders root))
    = Throws e ->
  e = appNotFound appId.
Proof.
  destruct (getLibraryFoldersSync_returns h root) as [folders Hf].
  erewrite result_bind; [| exact Hf]. intros H.
  apply (find_throws_unreadable h _ _ _ _ H).
Qed.

Lemma findSteamAppSync_supplied appId root :
  root <> "" ->
  findSteamAppSync_with h findSteamPathSync appId (Some root) =
    bind (SteamLibraries.getLibraryFoldersSync h root)
      (fun folders => SteamApps.findSteamAppInLibrariesSync h appId folders root).
Proof.
  intros Hroot. unfold findSteamAppSync_with, actualPath. simpl.
  destruct root as [| c root']; [contradiction |]. cbn [JS.truthy].
  rewrite bind_ret_l. apply try_rethrowApp. intros e He.
  rewrite (lookup_throws_appNotFound _ _ _ He). reflexivity.
Qed.

Lemma findSteamAppSync_empty appId :
  findSteamAppSync_with h findSteamPathSync appId (Some "")
    = findSteamAppSync_with h findSteamPathSync appId None.
Proof. reflexivity. Qed.
End SuppliedRoot.

(** C10.  With a non-empty root supplied, findSteamAppSync and
    findSteamApp (of both revisions) are the library discovery under that
    root followed by the lookup: the resolver has no part in the run, and
    the only error thrown is the SteamAppNotFoundError whose message
    carries the requested appId, so never a SteamNotFoundError.  An empty
    root is treated as an absent one, and then the resolver runs and its
    SteamNotFoundError can come out, as it does on the host at the end. *)
Theorem supplied_root_skips_resolution (h : Host) (appId root : string) :
  root <> "" ->
  let lookup :=
    bind (SteamLibraries.getLibraryFoldersSync h root)
      (fun folders => SteamApps.findSteamAppInLibrariesSync h appId folders root) in
  (Index.findSteamAppSync h appId (Some root) = lookup
   /\ await (Index.findSteamApp h appId (Some root)) = lookup
   /\ SingleFileIndex.findSteamAppSync h appId (Some root) = lookup
   /\ await (SingleFileIndex.findSteamApp h appId (Some root)) = lookup)
  /\ (forall e, result lookup = Throws e ->
                e = appNotFound appId /\ isSteamNotFoundError e = false)
  /\ (Index.findSteamAppSync h appId (Some "") = Index.findSteamAppSync h appId None
      /\ SingleFileIndex.findSteamAppSync h appId (Some "")
         = SingleFileIndex.findSteamAppSync h appId None)
  /\ result (Index.findSteamAppSync aixBox appId (Some ""))
     = Throws (unsupportedPlatform "aix").
Proof.
  intros Hroot lookup. split; [| split; [| split]].
  - unfold Index.findSteamApp, SingleFileIndex.findSteamApp.
    rewrite !findSteamApp_sync.
    repeat split; apply findSteamAppSync_supplied, Hroot.
  - intros e He. rewrite (lookup_throws_appNotFound h _ _ _ He). split; reflexivity.
  - split; reflexivity.
  - reflexivity.
Qed.

Lemma supplied_root_skips_resolution_witness :
  Index.findSteamAppSync Sample.linuxBox "441" (Some "/home/user/.local/share/Steam")
  = bind (SteamLibraries.getLibraryFoldersSync Sample.linuxBox "/home/user/.local/share/Steam")
      (fun folders =>
         SteamApps.findSteamAppInLibrariesSync Sample.linuxBox "441" folders
           "/home/user/.local/share/Steam").
Proof.
  apply (proj1 (proj1 (supplied_root_skips_resolution Sample.linuxBox "441"
                         "/home/user/.local/share/Steam" ltac:(discriminate)))).
Defined.

(** ** The examples of the specification and of the README *)

Example readme_location :
  result (Index.findSteamLocationSync readmeBox) =
    Returns {| path := "C:\Program Files (x86)\Steam";
               isRunning := true;
               platform := "win32";
               version := Some "5.98.0.0";
               libraryFolders :=
                 [ "C:\Program Files (x86)\Steam\steamapps";
                   "D:\SteamLibrary\steamapps" ] |}.
Proof. vm_compute. reflexivity. Qed.

Example readme_app :
  result (Index.findSteamAppSync readmeBox "570" None) =
    Returns {| appId := "570";
               name := Some "Dota 2";
               installDir := Some "D:\SteamLibrary\steamapps\common\dota 2 beta";
               sizeOnDisk := Some (JS.Num 20000000000);
               isInstalled := true;
               lastUpdated := None |}.
Proof. vm_compute. reflexivity. Qed.

Example spec_team_fortress :
  result (Index.findSteamAppSync Sample.linuxBox "440" None) =
    Returns {| appId := "440";
               name := Some "Team Fortress 2";
               installDir :=
                 Some "/home/user/.local/share/Steam/steamapps/common/Team Fortress 2";
               sizeOnDisk := Some (JS.Num 15000000000);
               isInstalled := true;
               lastUpdated := Some (JS.mkDate (JS.Num 1640995200000)) |}.
Proof. vm_compute. reflexivity. Qed.

Example spec_unknown_app :
  result (Index.findSteamAppSync Sample.linuxBox "999999" None)
    = Throws (SteamAppNotFoundError "Steam app with ID 999999 not found").
Proof. vm_compute. reflexivity. Qed.

(** * Further properties of the code *)

(** ** What root resolution returns and throws *)

Section ResolverFacts.
Variable h : Host.
Variables unescape canonical : string -> string.





Lemma probeMacOS_find paths :
  result (SingleFile.probeMacOS h paths) =
    match List.find (qualifiesMacOS h) paths with
    | Some p => Returns p
    | None => Throws macNotFound
    end.
Proof.
  induction paths as [| c paths IH]; cbn [SingleFile.probeMacOS List.find]; [reflexivity |].
  unfold qualifiesMacOS at 1. erewrite result_bind; [| reflexivity].
  destruct (fs_exists h c) eqn:Ec; [| exact IH]. cbn [andb].
  destruct (JS.includes c "Steam.app").
  - erewrite result_bind; [| reflexivity].
    destruct (fs_exists h (path_join h [c; "Steam"])); [reflexivity | exact IH].
  - erewrite result_bind; [| reflexivity]. rewrite Ec. reflexivity.
Qed.

End ResolverFacts.



(** ** The first candidate that exists *)

Section FirstCandidate.
Variable h : Host.

Lemma modular_probe_first before q after :
  Forall (absent h) before -> fs_exists h q = true ->
  SteamPath.probeCandidates h ∅ (before ++ q :: after)
    = (Returns q, List.map Probe before ++ [Probe q]).
Proof.
  intros Hb Hq. induction before as [| c before IH]; cbn [app SteamPath.probeCandidates].
  - destruct (decide (q ∈ (∅ : gset string))) as [Hin | _]; [set_solver |].
    simpl. rewrite Hq. reflexivity.
  - inversion Hb as [| x l Hc Hrest]; subst. unfold absent in Hc.
    destruct (decide (c ∈ (∅ : gset string))) as [Hin | _]; [set_solver |].
    simpl. rewrite Hc, (IH Hrest). reflexivity.
Qed.

Lemma single_file_probe_first before q after :
  Forall (absent h) before -> fs_exists h q = true ->
  SingleFile.probeLinux h (before ++ q :: after)
    = (Returns q, List.map Probe before ++ [Probe q]).
Proof.
  intros Hb Hq. induction before as [| c before IH]; cbn [app SingleFile.probeLinux].
  - simpl. rewrite Hq. reflexivity.
  - inversion Hb as [| x l Hc Hrest]; subst. unfold absent in Hc.
    simpl. rewrite Hc, (IH Hrest). reflexivity.
Qed.
End FirstCandidate.

(** X2.  On linux, root resolution returns the first candidate path that
    exists, having probed the candidates before it and nothing after it;
    in the single-file index.ts no [which steam] is run in that case, and
    in steam-path.ts the set of seen paths never keeps a candidate from
    being probed. *)
Theorem linux_first_existing_candidate (h : Host) :
  os_platform h = "linux" ->
  (forall before q after,
      SteamPath.candidatePathsLinux h = before ++ q :: after ->
      Forall (absent h) before -> fs_exists h q = true ->
      SteamPath.findSteamPathSync h = (Returns q, List.map Probe before ++ [Probe q]))
  /\ (forall before q after,
      SingleFile.commonPathsLinux h = before ++ q :: after ->
      Forall (absent h) before -> fs_exists h q = true ->
      SingleFile.findSteamPathSync h = (Returns q, List.map Probe before ++ [Probe q])).
Proof.
  intros Hp. destruct (dispatch_linux h Hp) as [-> ->].
  unfold SteamPath.findSteamPathLinux, SingleFile.findSteamPathLinux.
  split; intros before q after -> Hb Hq.
  - apply modular_probe_first; assumption.
  - apply single_file_probe_first; assumption.
Qed.

Lemma linux_first_existing_candidate_witness :
  SteamPath.findSteamPathSync steamBox =
    (Returns "/home/user/.steam/steam",
     [ Probe "/home/user/.var/app/com.valvesoftware.Steam/.local/share/Steam";
       Probe "/home/user/.var/app/com.valvesoftware.Steam/.steam/steam";
       Probe "/home/user/.var/app/com.valvesoftware.Steam/.steam/root";
       Probe "/home/user/.local/share/Steam";
       Probe "/home/user/.steam/steam" ])
  /\ SingleFile.findSteamPathSync steamBox =
    (Returns "/home/user/.steam/steam",
     [ Probe "/usr/bin/steam"; Probe "/usr/local/bin/steam"; Probe "/opt/steam";
       Probe "/home/user/.steam/steam" ]).
Proof.
  split.
  - apply (proj1 (linux_first_existing_candidate steamBox eq_refl)
             [ "/home/user/.var/app/com.valvesoftware.Steam/.local/share/Steam";
               "/home/user/.var/app/com.valvesoftware.Steam/.steam/steam";
               "/home/user/.var/app/com.valvesoftware.Steam/.steam/root";
               "/home/user/.local/share/Steam" ]
             "/home/user/.steam/steam"
             [ "/home/user/.steam/root"; "/home/user/.steam/debian-installation";
               "/home/user/snap/steam/common/.local/share/Steam";
               "/home/user/snap/steam/common/.steam/steam";
               "/home/user/snap/steam/common/.steam/root" ]).
    + reflexivity.
    + apply absent_all. vm_compute. reflexivity.
    + reflexivity.
  - apply (proj2 (linux_first_existing_candidate steamBox eq_refl)
             [ "/usr/bin/steam"; "/usr/local/bin/steam"; "/opt/steam" ]
             "/home/user/.steam/steam"
             [ "/home/user/.local/share/Steam"; "/usr/games/steam"; "/snap/steam/current" ]).
    + reflexivity.
    + apply absent_all. vm_compute. reflexivity.
    + reflexivity.
Defined.

(** X3.  On darwin, the single-file index.ts returns the first of its
    four candidates that exists and, when it lies in the Steam.app
    bundle, holds the Steam executable, and throws SteamNotFoundError when
    none does; steam-path.ts probes one path, Library/Application
    Support/Steam under the home directory, and returns it exactly when
    it exists. *)
Theorem macos_resolution (h : Host) :
  os_platform h = "darwin" ->
  result (SingleFile.findSteamPathSync h) =
    match List.find (qualifiesMacOS h) (SingleFile.commonPathsMacOS h) with
    | Some p => Returns p
    | None => Throws macNotFound
    end
  /\ SteamPath.findSteamPathSync h =
       let lib := path_resolve h [os_homedir h; "Library/Application Support/Steam"] in
       (if fs_exists h lib then Returns lib else Throws macNotFound, [Probe lib]).
Proof.
  intros Hp. unfold SteamPath.findSteamPathSync, SingleFile.findSteamPathSync.
  rewrite Hp. cbn [String.eqb Ascii.eqb Bool.eqb].
  split; [apply probeMacOS_find |].
  unfold SteamPath.findSteamPathMacOS, existsSync. cbv zeta.
  destruct (fs_exists h _); reflexivity.
Qed.

Lemma macos_resolution_witness :
  result (SingleFile.findSteamPathSync macBox) = Returns "/Applications/Steam.app/Contents/MacOS"
  /\ SteamPath.findSteamPathSync macBox =
       (Returns "/Users/me/Library/Application Support/Steam",
        [Probe "/Users/me/Library/Application Support/Steam"]).
Proof.
  exact (macos_resolution macBox eq_refl).
Defined.

(** ** The registry value in steam-path.ts *)

Lemma replaceAll_backslash (s : string) : JS.replaceAll "\" "\" s = s.
Proof.
  unfold JS.replaceAll. induction s as [| c s IH]; [reflexivity |].
  cbn [JS.replaceAll_go JS.truthy andb JS.startsWith].
  destruct (Ascii.eqb_spec "\"%char c) as [<- | _].
  - cbn [String.length Nat.sub]. rewrite IH. reflexivity.
  - rewrite IH. reflexivity.
Qed.

Lemma dropWhile_head f (s : string) c r :
  JS.dropWhile f s = String c r -> f c = false.
Proof.
  induction s as [| a s IH]; simpl; [discriminate |].
  destruct (f a) eqn:Ea; [exact IH |]. intros H. injection H as <- _. exact Ea.
Qed.

Lemma terminator_is_space c : JS.isWhiteSpace c = false -> JS.isLineTerminator c = false.
Proof.
  unfold JS.isWhiteSpace, JS.isLineTerminator.
  destruct (JS.code c) as [| n]; [reflexivity |].
  do 8 (destruct n as [n | n |]; try reflexivity; try discriminate).
Qed.

Lemma spacesThenRest_truthy s v : JS.spacesThenRest s = Some v -> JS.truthy v = true.
Proof.
  unfold JS.spacesThenRest. destruct s as [| c w]; [discriminate |].
  destruct (JS.isWhiteSpace c); [| discriminate].
  destruct (JS.dropWhile JS.isWhiteSpace w) as [| c' r'] eqn:Ed.
  - destruct (JS.lastDot w); [| discriminate]. intros H. injection H as <-. reflexivity.
  - intros H. injection H as <-. simpl.
    rewrite (terminator_is_space _ (dropWhile_head _ _ _ _ Ed)). reflexivity.
Qed.

Lemma matchRegistry_truthy s v : JS.matchRegistry s = Some v -> JS.truthy v = true.
Proof.
  assert (Hat : forall s, JS.registryAt s = Some v -> JS.truthy v = true).
  { intros s0. unfold JS.registryAt.
    destruct (if JS.startsWith s0 "SteamPath" then _ else _) as [[| c r1] |];
      try discriminate.
    destruct (JS.isWhiteSpace c); [| discriminate].
    destruct (JS.startsWith _ "REG_SZ"); [| discriminate].
    apply spacesThenRest_truthy. }
  induction s as [| c s IH]; cbn [JS.matchRegistry].
  - destruct (JS.registryAt "") as [v' |] eqn:E; [| discriminate].
    intros H. injection H as ->. exact (Hat _ E).
  - destruct (JS.registryAt (String c s)) as [v' |] eqn:E; [| exact IH].
    intros H. injection H as ->. exact (Hat _ E).
Qed.

(** X4.  In steam-path.ts the replace applied to the registry value
    changes nothing (each backslash is replaced by itself): the Windows
    resolver runs as it would without the call, and the path it tests is
    the captured value trimmed and normalized. *)
Theorem modular_registry_value_unchanged (h : Host) :
  SteamPath.findSteamPathWindows h
    = findSteamPathWindows_body h (fun v => v) (path_normalize h)
  /\ registryPath h (JS.replaceAll "\" "\") (path_normalize h) =
     match child_exec h registryQuery with
     | SysOk regOutput =>
         option_map (fun v => path_normalize h (JS.trim v)) (JS.matchRegistry regOutput)
     | SysErr _ => None
     end.
Proof.
  split.
  - unfold SteamPath.findSteamPathWindows, findSteamPathWindows_body. f_equal.
    unfold registryLookup. f_equal. apply bind_ext. intros regOutput.
    destruct (JS.present (JS.matchRegistry regOutput)) as [v |]; [| reflexivity].
    rewrite replaceAll_backslash. reflexivity.
  - unfold registryPath. destruct (child_exec h registryQuery) as [out | msg]; [| reflexivity].
    destruct (JS.matchRegistry out) as [v |] eqn:Em; [| reflexivity].
    simpl. rewrite (matchRegistry_truthy _ _ Em), replaceAll_backslash. reflexivity.
Qed.

(** ** Runs without commands *)

Lemma quiet_nil : quiet [].
Proof. constructor. Qed.

Lemma quiet_bind {A B} (m : M A) (k : A -> M B) :
  quiet (trace m) -> (forall a, quiet (trace (k a))) -> quiet (trace (bind m k)).
Proof.
  destruct m as [[a | e] t]; simpl; intros Hm Hk; [| exact Hm].
  specialize (Hk a). destruct (k a) as [r t']. simpl in *.
  apply Forall_app. split; assumption.
Qed.

Lemma quiet_try {A} (m : M A) (handler : Exn -> M A) :
  quiet (trace m) -> (forall e, quiet (trace (handler e))) ->
  quiet (trace (try_catch m handler)).
Proof.
  destruct m as [[a | e] t]; simpl; intros Hm Hk; [exact Hm |].
  specialize (Hk e). destruct (handler e) as [r t']. simpl in *.
  apply Forall_app. split; assumption.
Qed.

Lemma quiet_existsSync h p : quiet (trace (existsSync h p)).
Proof. repeat constructor. Qed.

Lemma quiet_readFileSync h p : quiet (trace (readFileSync h p)).
Proof. unfold readFileSync, ask. destruct (fs_readFile h p); repeat constructor. Qed.

Lemma quiet_readdirSync h p : quiet (trace (readdirSync h p)).
Proof. unfold readdirSync, ask. destruct (fs_readdir h p); repeat constructor. Qed.

(** ** The process check and the version *)

(** X5.  isSteamRunningSync never throws.  It runs one command, the
    process query of the platform, and none on a platform it does not
    know, where it answers false; it answers false when the command
    fails, and true only when the command succeeded and printed
    something. *)
Theorem running_check_is_guarded (h : Host) :
  returns (SteamProcess.isSteamRunningSync h)
  /\ trace (SteamProcess.isSteamRunningSync h) =
       match SteamProcess.processQuery (os_platform h) with
       | Some command => [Exec command]
       | None => []
       end
  /\ (~ supported (os_platform h) ->
      SteamProcess.isSteamRunningSync h = (Returns false, []))
  /\ (forall command msg,
        SteamProcess.processQuery (os_platform h) = Some command ->
        child_exec h command = SysErr msg ->
        result (SteamProcess.isSteamRunningSync h) = Returns false)
  /\ (result (SteamProcess.isSteamRunningSync h) = Returns true ->
      exists command output,
        SteamProcess.processQuery (os_platform h) = Some command
        /\ child_exec h command = SysOk output
        /\ output <> "").
Proof.
  split; [apply try_catch_total; intros e; apply ret_returns |].
  unfold SteamProcess.isSteamRunningSync. cbv zeta.
  split; [| split; [| split]].
  - destruct (SteamProcess.processQuery (os_platform h)) as [command |]; [| reflexivity].
    unfold execSync, ask. destruct (child_exec h command); [| reflexivity].
    simpl. destruct (os_platform h =? "win32")%string; reflexivity.
  - intros Hn. unfold SteamProcess.processQuery, supported in *.
    destruct (String.eqb_spec (os_platform h) "win32") as [E | _]; [tauto |].
    destruct (String.eqb_spec (os_platform h) "darwin") as [E | _]; [tauto |].
    destruct (String.eqb_spec (os_platform h) "linux") as [E | _]; [tauto |].
    reflexivity.
  - intros command msg -> Hc. unfold execSync, ask. rewrite Hc. reflexivity.
  - destruct (SteamProcess.processQuery (os_platform h)) as [command |]; [| discriminate].
    unfold execSync, ask.
    destruct (child_exec h command) as [out | msg] eqn:Ec; [| discriminate].
    intros H. exists command, out. split; [reflexivity |]. split; [exact Ec |].
    intros ->. simpl in H. destruct (os_platform h =? "win32")%string; discriminate H.
Qed.

Lemma running_check_is_guarded_witness :
  exists command output,
    SteamProcess.processQuery (os_platform macBox) = Some command
    /\ child_exec macBox command = SysOk output
    /\ output <> "".
Proof.
  apply (proj2 (proj2 (proj2 (proj2 (running_check_is_guarded macBox))))).
  vm_compute. reflexivity.
Defined.

Section VersionFacts.
Variable h : Host.

Lemma readVersionFiles_run paths :
  result (SteamVersion.readVersionFiles h paths) = Returns (head (omap (versionFrom h) paths))
  /\ quiet (trace (SteamVersion.readVersionFiles h paths)).
Proof.
  induction paths as [| p paths [IHr IHq]]; cbn [SteamVersion.readVersionFiles].
  - split; [reflexivity | apply quiet_nil].
  - split.
    + erewrite result_bind; [| reflexivity].
      cbn [omap list_omap]. unfold versionFrom at 1.
      destruct (fs_exists h p); [| exact IHr].
      unfold readFileSync, ask. destruct (fs_readFile h p) as [raw | msg].
      * erewrite result_bind; [| reflexivity].
        destruct (JS.truthy (JS.trim raw)); [reflexivity | exact IHr].
      * erewrite result_bind; [| reflexivity]. exact IHr.
    + apply quiet_bind; [apply quiet_existsSync |]. intros e.
      destruct e; [| exact IHq].
      apply quiet_bind.
      * apply quiet_try; [| intros; apply quiet_nil].
        apply quiet_bind; [apply quiet_readFileSync | intros; apply quiet_nil].
      * intros [v |]; [apply quiet_nil | exact IHq].
Qed.
End VersionFacts.

(** X6.  getSteamVersionSync never throws.  When the platform is not
    win32, or steam.exe is missing under the root, or the file-version
    query fails, the version is the trimmed text of the first of the four
    version files that exists, can be read and is not blank, and is
    absent when there is none; off win32 no command is run.  On win32 a
    query that succeeds decides the version, even when it prints nothing,
    and no version file is looked at. *)
Theorem version_sources (h : Host) (root : string) :
  let exe := path_join h [root; "steam.exe"] in
  let fromFiles := head (omap (versionFrom h) (SteamVersion.versionPaths h root)) in
  returns (SteamVersion.getSteamVersionSync h root)
  /\ (os_platform h <> "win32" ->
      result (SteamVersion.getSteamVersionSync h root) = Returns fromFiles
      /\ quiet (trace (SteamVersion.getSteamVersionSync h root)))
  /\ (fs_exists h exe = false ->
      result (SteamVersion.getSteamVersionSync h root) = Returns fromFiles)
  /\ (forall msg, child_exec h (SteamVersion.versionQuery exe) = SysErr msg ->
      result (SteamVersion.getSteamVersionSync h root) = Returns fromFiles)
  /\ (forall output,
        os_platform h = "win32" -> fs_exists h exe = true ->
        child_exec h (SteamVersion.versionQuery exe) = SysOk output ->
        SteamVersion.getSteamVersionSync h root
          = (Returns (Some (JS.trim output)),
             [Probe exe; Exec (SteamVersion.versionQuery exe)])).
Proof.
  intros exe fromFiles.
  split; [apply try_catch_total; intros e; apply ret_returns |].
  destruct (readVersionFiles_run h (SteamVersion.versionPaths h root)) as [Hr Hq].
  fold fromFiles in Hr.
  unfold SteamVersion.getSteamVersionSync, SteamVersion.fileVersion. fold exe.
  split; [| split; [| split]].
  - intros Hp. apply String.eqb_neq in Hp. rewrite Hp. split.
    + apply result_try_returns with (a := fromFiles). erewrite result_bind; [| reflexivity].
      exact Hr.
    + apply quiet_try; [| intros; apply quiet_nil].
      apply quiet_bind; [apply quiet_nil | intros [v |]; [apply quiet_nil | exact Hq]].
  - intros He. apply result_try_returns.
    assert (Hv : result (if (os_platform h =? "win32")%string
                         then e <- existsSync h exe ;;
                              if e then
                                try_catch
                                  (output <- execSync h (SteamVersion.versionQuery exe) ;;
                                   ret (Some (JS.trim output)))
                                  (fun _ => ret None)
                              else ret None
                         else ret None) = Returns None).
    { destruct (os_platform h =? "win32")%string; [| reflexivity].
      erewrite result_bind; [| reflexivity]. rewrite He. reflexivity. }
    erewrite result_bind; [| exact Hv]. exact Hr.
  - intros msg Hc. apply result_try_returns.
    assert (Hv : result (if (os_platform h =? "win32")%string
                         then e <- existsSync h exe ;;
                              if e then
                                try_catch
                                  (output <- execSync h (SteamVersion.versionQuery exe) ;;
                                   ret (Some (JS.trim output)))
                                  (fun _ => ret None)
                              else ret None
                         else ret None) = Returns None).
    { destruct (os_platform h =? "win32")%string; [| reflexivity].
      erewrite result_bind; [| reflexivity].
      destruct (fs_exists h exe); [| reflexivity].
      unfold execSync, ask. rewrite Hc. reflexivity. }
    erewrite result_bind; [| exact Hv]. exact Hr.
  - intros output Hp He Hc. rewrite Hp. cbn [String.eqb Ascii.eqb Bool.eqb].
    unfold existsSync, execSync, ask. rewrite Hc. simpl. rewrite He. reflexivity.
Qed.

Lemma version_sources_witness :
  result (SteamVersion.getSteamVersionSync macBox "/Users/me/Library/Application Support/Steam")
    = Returns (Some "1700000000")
  /\ SteamVersion.getSteamVersionSync readmeBox "C:\Program Files (x86)\Steam"
     = (Returns (Some "5.98.0.0"),
        [ Probe "C:\Program Files (x86)\Steam\steam.exe";
          Exec (SteamVersion.versionQuery "C:\Program Files (x86)\Steam\steam.exe") ]).
Proof.
  split.
  - apply (proj1 (proj1 (proj2 (version_sources macBox
                                  "/Users/me/Library/Application Support/Steam"))
                    ltac:(discriminate))).
  - apply (proj2 (proj2 (proj2 (proj2 (version_sources readmeBox
                                         "C:\Program Files (x86)\Steam"))))
             ("5.98.0.0" +:+ Sample.lf)); reflexivity.
Defined.

(** ** The inventory in closed form *)

Section SightingFacts.
Variable h : Host.
Local Abbreviation isWin := (String.eqb (os_platform h) "win32").

Lemma single_file_visitFile_sighting folder apps file :
  result (SingleFileApps.visitFile h folder apps file)
    = Returns (apps ++ option_list (sighting h folder file)).
Proof.
  unfold SingleFileApps.visitFile, sighting, manifestEntry.
  destruct (JS.startsWith file "appmanifest_" && JS.endsWith file ".acf");
    [| simpl; rewrite app_nil_r; reflexivity].
  destruct (JS.present (JS.matchManifestName file)) as [id |];
    [| simpl; rewrite app_nil_r; reflexivity].
  destruct (SteamApps.findSteamAppInLibrariesSync h id [folder] "") as [[app | e] t];
    [| simpl; rewrite app_nil_r; reflexivity].
  simpl. destruct (isInstalled app); simpl; [| rewrite app_nil_r]; reflexivity.
Qed.

Lemma single_file_visitFiles_sightings folder files : forall apps,
  result (SingleFileApps.visitFiles h folder apps files)
    = Returns (apps ++ omap (sighting h folder) files).
Proof.
  induction files as [| file files IH]; intros apps; cbn [SingleFileApps.visitFiles].
  - simpl. rewrite app_nil_r. reflexivity.
  - erewrite result_bind; [| apply single_file_visitFile_sighting].
    rewrite IH. cbn [omap list_omap].
    destruct (sighting h folder file); simpl; [rewrite <- app_assoc | rewrite app_nil_r];
      reflexivity.
Qed.

Lemma single_file_visitFolder_sightings folder apps :
  result (SingleFileApps.visitFolder h apps folder)
    = Returns (apps ++ omap (sighting h folder) (listing h folder)).
Proof.
  unfold SingleFileApps.visitFolder, listing, readdirSync, ask.
  destruct (fs_readdir h folder) as [files | msg].
  - pose proof (single_file_visitFiles_sightings folder files apps) as H.
    eapply result_try_returns. erewrite result_bind; [exact H | reflexivity].
  - simpl. rewrite app_nil_r. reflexivity.
Qed.

Lemma single_file_visitFolders_sightings folders : forall apps,
  result (SingleFileApps.visitFolders h apps folders) = Returns (apps ++ sightings h folders).
Proof.
  induction folders as [| folder folders IH]; intros apps; cbn [SingleFileApps.visitFolders].
  - simpl. rewrite app_nil_r. reflexivity.
  - erewrite result_bind; [| apply single_file_visitFolder_sightings].
    rewrite IH. unfold sightings. cbn [flat_map]. rewrite <- app_assoc. reflexivity.
Qed.

Lemma modular_visitFile_sighting folder st file :
  result (SteamApps.visitFile h isWin folder st file)
    = Returns (match sighting h folder file with
               | Some app => dedupStep h st app
               | None => st
               end).
Proof.
  unfold SteamApps.visitFile, sighting, manifestEntry.
  destruct (JS.startsWith file "appmanifest_" && JS.endsWith file ".acf"); [| reflexivity].
  destruct (JS.present (JS.matchManifestName file)) as [id |]; [| reflexivity].
  destruct (SteamApps.findSteamAppInLibrariesSync h id [folder] "") as [[app | e] t];
    [| reflexivity].
  apply result_try_returns. erewrite result_bind; [| reflexivity].
  cbn [result fst]. unfold dedupStep, entryKey.
  destruct (isInstalled app); [| reflexivity].
  destruct (JS.present (installDir app)) as [dir |]; [| reflexivity].
  destruct (decide (SteamApps.dedupKey h isWin (appId app) dir ∈ st.2)); reflexivity.
Qed.

Lemma modular_visitFiles_sightings folder files : forall st,
  result (SteamApps.visitFiles h isWin folder st files)
    = Returns (fold_left (dedupStep h) (omap (sighting h folder) files) st).
Proof.
  induction files as [| file files IH]; intros st; cbn [SteamApps.visitFiles]; [reflexivity |].
  erewrite result_bind; [| apply modular_visitFile_sighting].
  rewrite IH. cbn [omap list_omap].
  destruct (sighting h folder file); reflexivity.
Qed.

Lemma modular_visitFolder_sightings folder st :
  result (SteamApps.visitFolder h isWin st folder)
    = Returns (fold_left (dedupStep h) (omap (sighting h folder) (listing h folder)) st).
Proof.
  unfold SteamApps.visitFolder, listing, readdirSync, ask.
  destruct (fs_readdir h folder) as [files | msg]; [| reflexivity].
  pose proof (modular_visitFiles_sightings folder files st) as H.
  eapply result_try_returns. erewrite result_bind; [exact H | reflexivity].
Qed.

Lemma modular_visitFolders_sightings folders : forall st,
  result (SteamApps.visitFolders h isWin st folders)
    = Returns (fold_left (dedupStep h) (sightings h folders) st).
Proof.
  induction folders as [| folder folders IH]; intros st; cbn [SteamApps.visitFolders];
    [reflexivity |].
  erewrite result_bind; [| apply modular_visitFolder_sightings].
  rewrite IH. unfold sightings. cbn [flat_map]. rewrite fold_left_app. reflexivity.
Qed.

Lemma dedup_fold_sublist apps : forall st,
  exists kept,
    (fold_left (dedupStep h) apps st).1 = st.1 ++ kept /\ sublist kept apps.
Proof.
  induction apps as [| a apps IH]; intros st; cbn [fold_left].
  - exists []. rewrite app_nil_r. split; [reflexivity | constructor].
  - destruct (IH (dedupStep h st a)) as (kept & He & Hs). unfold dedupStep in He |- *.
    destruct (entryKey h a) as [key |].
    + destruct (decide (key ∈ st.2)).
      * exists kept. split; [exact He | apply sublist_cons, Hs].
      * exists (a :: kept). cbn [fst] in He. rewrite <- app_assoc in He.
        split; [exact He | apply sublist_skip, Hs].
    + exists kept. split; [exact He | apply sublist_cons, Hs].
Qed.
End SightingFacts.

(** X7.  The inventory of the single-file index.ts is the list of the
    sightings: for each folder in order, for each listed entry in order
    whose name passes the tests, the app its manifest gives when it is
    installed.  The inventory of steam-apps.ts is that same list passed
    through the key filter, so it is a subsequence of it: the later
    revision only drops entries. *)
Theorem inventory_closed_form (h : Host) (folders : list string) :
  result (SingleFileApps.getInstalledSteamAppsFromLibrariesSync h folders)
    = Returns (sightings h folders)
  /\ result (SteamApps.getInstalledSteamAppsFromLibrariesSync h folders)
    = Returns (fold_left (dedupStep h) (sightings h folders) ([], ∅)).1
  /\ sublist (fold_left (dedupStep h) (sightings h folders) ([], ∅)).1 (sightings h folders).
Proof.
  split; [| split].
  - apply (single_file_visitFolders_sightings h folders []).
  - unfold SteamApps.getInstalledSteamAppsFromLibrariesSync.
    erewrite result_bind; [| apply modular_visitFolders_sightings]. reflexivity.
  - destruct (dedup_fold_sublist h (sightings h folders) ([], ∅)) as (kept & He & Hs).
    rewrite He. exact Hs.
Qed.

(** ** What a lookup and the inventory return *)

Lemma dropWhile_takeWhile f (s : string) : JS.dropWhile f (JS.takeWhile f s) = "".
Proof.
  induction s as [| c s IH]; [reflexivity |]. simpl.
  destruct (f c) eqn:Ec; [simpl; rewrite Ec; exact IH | reflexivity].
Qed.

Lemma manifestEntry_digits file id :
  manifestEntry file = Some id -> id <> "" /\ JS.dropWhile JS.isDigit id = "".
Proof.
  unfold manifestEntry. destruct (_ && _); [| discriminate].
  assert (Hat : forall s v, JS.manifestNameAt s = Some v ->
                            JS.dropWhile JS.isDigit v = "").
  { intros s v. unfold JS.manifestNameAt.
    destruct (JS.startsWith s "appmanifest_"); [| discriminate].
    destruct (_ && _); [| discriminate].
    intros H. injection H as <-. apply dropWhile_takeWhile. }
  assert (Hm : forall s v, JS.matchManifestName s = Some v ->
                           JS.dropWhile JS.isDigit v = "").
  { induction s as [| c s IH]; intros v; cbn [JS.matchManifestName].
    - destruct (JS.manifestNameAt "") as [v' |] eqn:E; [| discriminate].
      intros H. injection H as <-. exact (Hat _ _ E).
    - destruct (JS.manifestNameAt (String c s)) as [v' |] eqn:E; [| apply IH].
      intros H. injection H as <-. exact (Hat _ _ E). }
  destruct (JS.matchManifestName file) as [v |] eqn:E; [| discriminate].
  simpl. destruct v as [| c v]; [discriminate |].
  intros H. injection H as <-. split; [discriminate | exact (Hm _ _ E)].
Qed.

Section LookupFacts.
Variable h : Host.

Lemma find_returns_from id folders sp app :
  result (SteamApps.findSteamAppInLibrariesSync h id folders sp) = Returns app ->
  exists folder content,
    folder ∈ folders
    /\ readableManifest h folder id = Some content
    /\ result (SteamApps.parseManifest h folder id content) = Returns app.
Proof.
  induction folders as [| g folders IH]; [discriminate |].
  destruct (readableManifest h g id) as [c |] eqn:Hg.
  - rewrite (find_cons_readable _ _ _ _ _ _ Hg). cbn [result fst]. intros H.
    exists g, c. split; [apply elem_of_cons; left; reflexivity | split; assumption].
  - rewrite (find_cons_unreadable _ _ _ _ _ Hg). cbn [result fst]. intros H.
    destruct (IH H) as (folder & content & Hin & Hr & Hp).
    exists folder, content. split; [apply elem_of_cons; right; exact Hin | split; assumption].
Qed.

Lemma parsed_app_shape folder id content app :
  result (SteamApps.parseManifest h folder id content) = Returns app ->
  appId app = id
  /\ name app = JS.matchField "name" content
  /\ (isInstalled app = true <-> installDir app <> None)
  /\ (forall dir, installDir app = Some dir ->
        fs_exists h dir = true
        /\ exists d, JS.matchField "installdir" content = Some d
                     /\ dir = path_join h [folder; "common"; d]).
Proof.
  intros Hr.
  destruct (parseManifest_fields h folder id content)
    as (app' & Happ & Hid & Hname & _ & _ & Hsome & Hnone).
  rewrite Hr in Happ. injection Happ as <-.
  split; [exact Hid |]. split; [exact Hname |].
  destruct (JS.matchField "installdir" content) as [d |] eqn:Ed.
  - destruct (Hsome d eq_refl) as [Hi Hdir]. split.
    + rewrite Hdir. destruct (isInstalled app); split; congruence.
    + intros dir Hd. rewrite Hdir in Hd.
      destruct (isInstalled app); [| discriminate]. injection Hd as <-.
      symmetry in Hi. apply andb_true_iff in Hi as [_ He].
      split; [exact He | exists d; split; reflexivity].
  - destruct (Hnone eq_refl) as [Hi Hdir]. split.
    + rewrite Hi, Hdir. split; [discriminate | congruence].
    + intros dir Hd. rewrite Hdir in Hd. discriminate.
Qed.

Lemma sighting_sound folder file app :
  sighting h folder file = Some app ->
  manifestEntry file = Some (appId app)
  /\ isInstalled app = true
  /\ result (SteamApps.findSteamAppInLibrariesSync h (appId app) [folder] "") = Returns app
  /\ exists dir, installDir app = Some dir /\ fs_exists h dir = true.
Proof.
  unfold sighting. destruct (manifestEntry file) as [id |]; [| discriminate].
  destruct (result (SteamApps.findSteamAppInLibrariesSync h id [folder] "")) as [a | e] eqn:Ef;
    [| discriminate].
  destruct (isInstalled a) eqn:Ei; [| discriminate]. intros H. injection H as <-.
  destruct (find_returns_from _ _ _ _ Ef) as (g & content & _ & _ & Hp).
  destruct (parsed_app_shape _ _ _ _ Hp) as (Hid & _ & Hiff & Hdir).
  rewrite Hid. repeat split; try assumption.
  destruct (installDir a) as [dir |] eqn:Ed.
  - exists dir. split; [reflexivity | apply (Hdir dir eq_refl)].
  - exfalso. apply Hiff in Ei. contradiction.
Qed.

Lemma sightings_elem folders app :
  app ∈ sightings h folders ->
  exists folder file,
    folder ∈ folders /\ file ∈ listing h folder /\ sighting h folder file = Some app.
Proof.
  unfold sightings. intros Hin. apply list_elem_of_In, in_flat_map in Hin.
  destruct Hin as (folder & Hf & Ha). apply list_elem_of_In in Hf, Ha.
  apply list_elem_of_omap in Ha as (file & Hfile & Hs).
  exists folder, file. repeat split; assumption.
Qed.
End LookupFacts.

(** X8.  Whatever findSteamAppInLibrariesSync returns carries the appId
    that was asked for and was built from a manifest that exists and can
    be read in one of the folders given; it is installed exactly when it
    has an installDir, and an installDir it has exists on disk and is
    [folder/common/installdir] for the installdir of that manifest. *)
Theorem lookup_result_shape (h : Host) (id sp : string) (folders : list string)
    (app : SteamApp) :
  result (SteamApps.findSteamAppInLibrariesSync h id folders sp) = Returns app ->
  appId app = id
  /\ (isInstalled app = true <-> installDir app <> None)
  /\ exists folder content,
       folder ∈ folders
       /\ readableManifest h folder id = Some content
       /\ name app = JS.matchField "name" content
       /\ (forall dir, installDir app = Some dir ->
             fs_exists h dir = true
             /\ exists d, JS.matchField "installdir" content = Some d
                          /\ dir = path_join h [folder; "common"; d]).
Proof.
  intros Hr. destruct (find_returns_from h _ _ _ _ Hr) as (folder & content & Hin & Hm & Hp).
  destruct (parsed_app_shape h _ _ _ _ Hp) as (Hid & Hname & Hiff & Hdir).
  split; [exact Hid |]. split; [exact Hiff |].
  exists folder, content. exact (conj Hin (conj Hm (conj Hname Hdir))).
Qed.

Lemma lookup_result_shape_witness :
  exists app,
    result (SteamApps.findSteamAppInLibrariesSync mixedBox "570" ["/missing"; "/lib"] "")
      = Returns app
    /\ appId app = "570"
    /\ (isInstalled app = true <-> installDir app <> None).
Proof.
  eexists. split; [vm_compute; reflexivity |].
  refine (let H := lookup_result_shape mixedBox "570" "" ["/missing"; "/lib"] _ _ in
          conj (proj1 H) (proj1 (proj2 H))).
  vm_compute. reflexivity.
Defined.

(** X9.  Every app in the inventory, of either revision, is installed,
    has an installDir that exists on disk, has an appId made of one or
    more decimal digits taken from the name of a listed entry of one of
    the folders, and is what the lookup of that appId in that folder
    alone returns. *)
Theorem inventory_lists_verified_apps (h : Host) (folders : list string)
    (apps : list SteamApp) (app : SteamApp) :
  result (SteamApps.getInstalledSteamAppsFromLibrariesSync h folders) = Returns apps
  \/ result (SingleFileApps.getInstalledSteamAppsFromLibrariesSync h folders) = Returns apps ->
  app ∈ apps ->
  isInstalled app = true
  /\ (exists dir, installDir app = Some dir /\ fs_exists h dir = true)
  /\ appId app <> "" /\ JS.dropWhile JS.isDigit (appId app) = ""
  /\ exists folder file,
       folder ∈ folders /\ file ∈ listing h folder
       /\ manifestEntry file = Some (appId app)
       /\ result (SteamApps.findSteamAppInLibrariesSync h (appId app) [folder] "")
          = Returns app.
Proof.
  intros Hr Hin.
  assert (Hs : app ∈ sightings h folders).
  { destruct Hr as [Hr | Hr].
    - unfold SteamApps.getInstalledSteamAppsFromLibrariesSync in Hr.
      erewrite result_bind in Hr; [| apply modular_visitFolders_sightings].
      injection Hr as <-.
      destruct (dedup_fold_sublist h (sightings h folders) ([], ∅)) as (kept & He & Hsub).
      rewrite He in Hin. eapply elem_of_sublist; [exact Hin | exact Hsub].
    - unfold SingleFileApps.getInstalledSteamAppsFromLibrariesSync in Hr.
      rewrite (single_file_visitFolders_sightings h folders []) in Hr.
      injection Hr as <-. exact Hin. }
  destruct (sightings_elem h _ _ Hs) as (folder & file & Hf & Hfile & Hsight).
  destruct (sighting_sound h _ _ _ Hsight) as (He & Hi & Hfind & Hdir).
  destruct (manifestEntry_digits _ _ He) as [Hne Hdig].
  repeat split; try assumption.
  exists folder, file. repeat split; assumption.
Qed.

Lemma inventory_lists_verified_apps_witness :
  let app := {| appId := "440";
                name := Some "Team Fortress 2";
                installDir := Some "/lib/common/Team Fortress 2";
                sizeOnDisk := Some (JS.Num 15000000000);
                isInstalled := true;
                lastUpdated := Some (JS.mkDate (JS.Num 1640995200000)) |} in
  result (SteamApps.getInstalledSteamAppsFromLibrariesSync mixedBox ["/nowhere"; "/lib"])
    = Returns [app]
  /\ exists folder file,
       folder ∈ ["/nowhere"; "/lib"] /\ file ∈ listing mixedBox folder
       /\ manifestEntry file = Some "440"
       /\ result (SteamApps.findSteamAppInLibrariesSync mixedBox "440" [folder] "")
          = Returns app.
Proof.
  intros app.
  assert (Hr : result (SteamApps.getInstalledSteamAppsFromLibrariesSync mixedBox
                         ["/nowhere"; "/lib"]) = Returns [app])
    by (vm_compute; reflexivity).
  split; [exact Hr |].
  apply (inventory_lists_verified_apps mixedBox ["/nowhere"; "/lib"] [app] app).
  - left. exact Hr.
  - apply list_elem_of_here.
Defined.

(** ** What the inventory passes over *)

Lemma sightings_app (h : Host) (l1 l2 : list string) :
  sightings h (l1 ++ l2) = sightings h l1 ++ sightings h l2.
Proof. unfold sightings. apply flat_map_app. Qed.

Lemma omap_all_none {A B} (f : A -> option B) (l : list A) :
  Forall (fun x => f x = None) l -> omap f l = [].
Proof.
  induction 1 as [| x l Hx _ IH]; [reflexivity |]. cbn [omap list_omap].
  rewrite Hx. exact IH.
Qed.

(** X10.  A folder that cannot be listed, or none of whose listed names
    both starts with appmanifest_ and ends with .acf, contributes
    nothing: the inventory, of either revision, is the one of the
    folders without it, wherever in the list it stands. *)
Theorem inventory_passes_over (h : Host) (before after : list string) (folder : string) :
  (exists message, fs_readdir h folder = SysErr message)
  \/ Forall (fun file => JS.startsWith file "appmanifest_" && JS.endsWith file ".acf" = false)
       (listing h folder) ->
  result (SteamApps.getInstalledSteamAppsFromLibrariesSync h (before ++ folder :: after))
    = result (SteamApps.getInstalledSteamAppsFromLibrariesSync h (before ++ after))
  /\ result (SingleFileApps.getInstalledSteamAppsFromLibrariesSync h (before ++ folder :: after))
     = result (SingleFileApps.getInstalledSteamAppsFromLibrariesSync h (before ++ after)).
Proof.
  intros Hf.
  assert (Hn : omap (sighting h folder) (listing h folder) = []).
  { destruct Hf as [[message Hm] | Hall].
    - unfold listing. rewrite Hm. reflexivity.
    - apply omap_all_none. eapply Forall_impl; [exact Hall |].
      intros file Hfile. unfold sighting, manifestEntry. cbv beta in Hfile.
      rewrite Hfile. reflexivity. }
  assert (Hs : sightings h (before ++ folder :: after) = sightings h (before ++ after)).
  { rewrite !sightings_app. f_equal. unfold sightings at 1. cbn [flat_map].
    rewrite Hn. reflexivity. }
  split.
  - unfold SteamApps.getInstalledSteamAppsFromLibrariesSync.
    erewrite result_bind; [| apply modular_visitFolders_sightings].
    symmetry. erewrite result_bind; [| apply modular_visitFolders_sightings].
    rewrite Hs. reflexivity.
  - unfold SingleFileApps.getInstalledSteamAppsFromLibrariesSync.
    rewrite !(single_file_visitFolders_sightings h _ []). rewrite Hs. reflexivity.
Qed.

Lemma inventory_passes_over_witness :
  result (SteamApps.getInstalledSteamAppsFromLibrariesSync mixedBox
            (["/lib"] ++ "/nowhere" :: ["/lib/common/Team Fortress 2"]))
    = result (SteamApps.getInstalledSteamAppsFromLibrariesSync mixedBox
                (["/lib"] ++ ["/lib/common/Team Fortress 2"]))
  /\ result (SingleFileApps.getInstalledSteamAppsFromLibrariesSync mixedBox
               (["/lib"] ++ "/nowhere" :: ["/lib/common/Team Fortress 2"]))
     = result (SingleFileApps.getInstalledSteamAppsFromLibrariesSync mixedBox
                 (["/lib"] ++ ["/lib/common/Team Fortress 2"])).
Proof.
  apply (inventory_passes_over mixedBox ["/lib"] ["/lib/common/Team Fortress 2"] "/nowhere").
  left. eexists. vm_compute. reflexivity.
Defined.

(** ** What reads files only *)

Ltac quiet_steps :=
  repeat first
    [ exact quiet_nil
    | apply quiet_existsSync
    | apply quiet_readFileSync
    | apply quiet_readdirSync
    | apply quiet_bind; [| intros ?]
    | apply quiet_try; [| intros ?]
    | match goal with
      | |- quiet (trace (match ?x with _ => _ end)) => destruct x
      | |- quiet (trace (if ?b then _ else _)) => destruct b
      end ].

Section QuietFacts.
Variable h : Host.

Lemma quiet_addLibraryPaths pathMatches : forall libraryFolders,
  quiet (trace (SteamLibraries.addLibraryPaths h libraryFolders pathMatches)).
Proof.
  induction pathMatches as [| m rest IH]; intros libraryFolders;
    cbn [SteamLibraries.addLibraryPaths]; [exact quiet_nil |].
  apply quiet_bind; [| intros ?; apply IH].
  unfold SteamLibraries.addLibraryPath. quiet_steps.
Qed.

Lemma quiet_getLibraryFoldersSync steamPath :
  quiet (trace (SteamLibraries.getLibraryFoldersSync h steamPath)).
Proof.
  unfold SteamLibraries.getLibraryFoldersSync.
  apply quiet_try; [| intros ?; exact quiet_nil].
  apply quiet_bind; [apply quiet_existsSync | intros e].
  apply quiet_bind; [apply quiet_existsSync | intros ev].
  destruct ev; [| exact quiet_nil].
  apply quiet_try; [| intros ?; destruct e; exact quiet_nil].
  apply quiet_bind; [apply quiet_readFileSync | intros content].
  destruct (JS.matchAllField "path" content); [apply quiet_addLibraryPaths |].
  destruct e; exact quiet_nil.
Qed.

Lemma quiet_parseManifest folder id content :
  quiet (trace (SteamApps.parseManifest h folder id content)).
Proof. unfold SteamApps.parseManifest. quiet_steps. Qed.

Lemma quiet_find id sp folders :
  quiet (trace (SteamApps.findSteamAppInLibrariesSync h id folders sp)).
Proof.
  induction folders as [| folder rest IH]; cbn [SteamApps.findSteamAppInLibrariesSync];
    [exact quiet_nil |].
  apply quiet_bind; [| intros [app |]; [exact quiet_nil | exact IH]].
  unfold SteamApps.lookIn.
  apply quiet_try; [| intros ?; exact quiet_nil].
  apply quiet_bind; [apply quiet_existsSync | intros [|]]; [| exact quiet_nil].
  apply quiet_bind; [apply quiet_readFileSync | intros content].
  apply quiet_bind; [apply quiet_parseManifest | intros ?; exact quiet_nil].
Qed.

Lemma quiet_modular_visitFiles isWin folder files : forall st,
  quiet (trace (SteamApps.visitFiles h isWin folder st files)).
Proof.
  induction files as [| file rest IH]; intros st; cbn [SteamApps.visitFiles];
    [exact quiet_nil |].
  apply quiet_bind; [| intros ?; apply IH].
  unfold SteamApps.visitFile.
  destruct (_ && _); [| exact quiet_nil].
  apply quiet_try; [| intros ?; exact quiet_nil].
  destruct (JS.present _); [| exact quiet_nil].
  apply quiet_bind; [apply quiet_find | intros app]. quiet_steps.
Qed.

Lemma quiet_modular_visitFolders isWin folders : forall st,
  quiet (trace (SteamApps.visitFolders h isWin st folders)).
Proof.
  induction folders as [| folder rest IH]; intros st; cbn [SteamApps.visitFolders];
    [exact quiet_nil |].
  apply quiet_bind; [| intros ?; apply IH].
  unfold SteamApps.visitFolder.
  apply quiet_try; [| intros ?; exact quiet_nil].
  apply quiet_bind; [apply quiet_readdirSync | intros files].
  apply quiet_modular_visitFiles.
Qed.

Lemma quiet_modular_inventory folders :
  quiet (trace (SteamApps.getInstalledSteamAppsFromLibrariesSync h folders)).
Proof.
  unfold SteamApps.getInstalledSteamAppsFromLibrariesSync.
  apply quiet_bind; [apply quiet_modular_visitFolders | intros ?; exact quiet_nil].
Qed.

Lemma quiet_single_file_visitFiles folder files : forall apps,
  quiet (trace (SingleFileApps.visitFiles h folder apps files)).
Proof.
  induction files as [| file rest IH]; intros apps; cbn [SingleFileApps.visitFiles];
    [exact quiet_nil |].
  apply quiet_bind; [| intros ?; apply IH].
  unfold SingleFileApps.visitFile.
  destruct (_ && _); [| exact quiet_nil].
  apply quiet_try; [| intros ?; exact quiet_nil].
  destruct (JS.present _); [| exact quiet_nil].
  apply quiet_bind; [apply quiet_find | intros app]. quiet_steps.
Qed.

Lemma quiet_single_file_inventory folders :
  quiet (trace (SingleFileApps.getInstalledSteamAppsFromLibrariesSync h folders)).
Proof.
  unfold SingleFileApps.getInstalledSteamAppsFromLibrariesSync.
  generalize (@nil SteamApp).
  induction folders as [| folder rest IH]; intros apps; cbn [SingleFileApps.visitFolders];
    [exact quiet_nil |].
  apply quiet_bind; [| intros ?; apply IH].
  unfold SingleFileApps.visitFolder.
  apply quiet_try; [| intros ?; exact quiet_nil].
  apply quiet_bind; [apply quiet_readdirSync | intros files].
  apply quiet_single_file_visitFiles.
Qed.

Lemma quiet_rethrowApp {A} id e : quiet (trace (@rethrowApp A id e)).
Proof. unfold rethrowApp. destruct (_ || _); exact quiet_nil. Qed.

Lemma quiet_rethrowApps {A} e : quiet (trace (@rethrowApps A e)).
Proof. unfold rethrowApps. destruct (isSteamNotFoundError e); exact quiet_nil. Qed.

Lemma quiet_findSteamAppSync_with resolver id root :
  JS.present (Some root) = Some root ->
  quiet (trace (findSteamAppSync_with h resolver id (Some root))).
Proof.
  intros Hp. unfold findSteamAppSync_with, actualPath. rewrite Hp.
  apply quiet_try; [| intros ?; apply quiet_rethrowApp].
  apply quiet_bind; [exact quiet_nil | intros p].
  apply quiet_bind; [apply quiet_getLibraryFoldersSync | intros ?; apply quiet_find].
Qed.

Lemma quiet_getInstalledSteamAppsSync_with resolver inventory root :
  (forall folders, quiet (trace (inventory folders))) ->
  JS.present (Some root) = Some root ->
  quiet (trace (getInstalledSteamAppsSync_with h resolver inventory (Some root))).
Proof.
  intros Hi Hp. unfold getInstalledSteamAppsSync_with, actualPath. rewrite Hp.
  apply quiet_try; [| intros ?; apply quiet_rethrowApps].
  apply quiet_bind; [exact quiet_nil | intros p].
  apply quiet_bind; [apply quiet_getLibraryFoldersSync | intros ?; apply Hi].
Qed.
End QuietFacts.

Lemma present_nonempty (root : string) : root <> "" -> JS.present (Some root) = Some root.
Proof. destruct root; [contradiction | reflexivity]. Qed.

(** X11.  Library discovery, the lookup of an app and the inventory, of
    either revision, run no command: they only probe, read and list.
    Hence the public findSteamAppSync and getInstalledSteamAppsSync run
    no command either when the caller supplies a non-empty root. *)
Theorem file_operations_run_no_command (h : Host) (id root : string)
    (folders : list string) :
  quiet (trace (SteamLibraries.getLibraryFoldersSync h root))
  /\ quiet (trace (SteamApps.findSteamAppInLibrariesSync h id folders root))
  /\ quiet (trace (SteamApps.getInstalledSteamAppsFromLibrariesSync h folders))
  /\ quiet (trace (SingleFileApps.getInstalledSteamAppsFromLibrariesSync h folders))
  /\ (root <> "" ->
      quiet (trace (Index.findSteamAppSync h id (Some root)))
      /\ quiet (trace (SingleFileIndex.findSteamAppSync h id (Some root)))
      /\ quiet (trace (Index.getInstalledSteamAppsSync h (Some root)))
      /\ quiet (trace (SingleFileIndex.getInstalledSteamAppsSync h (Some root)))).
Proof.
  split; [apply quiet_getLibraryFoldersSync |].
  split; [apply quiet_find |].
  split; [apply quiet_modular_inventory |].
  split; [apply quiet_single_file_inventory |].
  intros Hroot. apply present_nonempty in Hroot.
  split; [apply quiet_findSteamAppSync_with, Hroot |].
  split; [apply quiet_findSteamAppSync_with, Hroot |].
  split; apply quiet_getInstalledSteamAppsSync_with; try exact Hroot.
  - apply quiet_modular_inventory.
  - apply quiet_single_file_inventory.
Qed.

Lemma file_operations_run_no_command_witness :
  quiet (trace (Index.findSteamAppSync mixedBox "440" (Some "/lib")))
  /\ quiet (trace (SingleFileIndex.findSteamAppSync mixedBox "440" (Some "/lib")))
  /\ quiet (trace (Index.getInstalledSteamAppsSync mixedBox (Some "/lib")))
  /\ quiet (trace (SingleFileIndex.getInstalledSteamAppsSync mixedBox (Some "/lib"))).
Proof.
  apply (file_operations_run_no_command mixedBox "440" "/lib" []). discriminate.
Defined.

(** ** The public operations as compositions *)


Section Composition.
Variable h : Host.
Variable resolver : M string.
Hypothesis resolver_throws :
  forall e, result resolver = Throws e -> isSteamNotFoundError e = true.






End Composition.

Section LocationFacts.
Variable h : Host.
Variable resolver : M string.
Variable canonical : string -> string.
Hypothesis resolver_throws :
  forall e, result resolver = Throws e -> isSteamNotFoundError e = true.



End LocationFacts.







(** X15.  A root supplied by the caller is not checked to be a Steam
    installation.  When it has neither a steamapps directory nor a
    libraryfolders.vdf, both revisions probe these two paths and nothing
    else; findSteamAppSync then throws the SteamAppNotFoundError of the
    appId, not a SteamNotFoundError, and getInstalledSteamAppsSync
    returns the empty list. *)
Theorem supplied_root_is_not_checked (h : Host) (id root : string) :
  root <> "" ->
  fs_exists h (path_join h [root; "steamapps"]) = false ->
  fs_exists h (vdfFile h root) = false ->
  let probes := [Probe (path_join h [root; "steamapps"]); Probe (vdfFile h root)] in
  Index.findSteamAppSync h id (Some root) = (Throws (appNotFound id), probes)
  /\ SingleFileIndex.findSteamAppSync h id (Some root) = (Throws (appNotFound id), probes)
  /\ Index.getInstalledSteamAppsSync h (Some root) = (Returns [], probes)
  /\ SingleFileIndex.getInstalledSteamAppsSync h (Some root) = (Returns [], probes).
Proof.
  intros Hroot Hmain Hvdf probes.
  assert (Hl : SteamLibraries.getLibraryFoldersSync h root = (Returns [], probes)).
  { unfold SteamLibraries.getLibraryFoldersSync, existsSync, vdfFile in *.
    cbn [bind try_catch]. rewrite Hmain. cbn [bind try_catch ret].
    rewrite Hvdf. reflexivity. }
  unfold Index.findSteamAppSync, SingleFileIndex.findSteamAppSync,
    Index.getInstalledSteamAppsSync, SingleFileIndex.getInstalledSteamAppsSync,
    findSteamAppSync_with, getInstalledSteamAppsSync_with, actualPath.
  rewrite (present_nonempty _ Hroot), !bind_ret_l, Hl.
  repeat split; reflexivity.
Qed.

Lemma supplied_root_is_not_checked_witness :
  Index.findSteamAppSync mixedBox "440" (Some "/nowhere")
    = (Throws (appNotFound "440"),
       [Probe (path_join mixedBox ["/nowhere"; "steamapps"]);
        Probe (vdfFile mixedBox "/nowhere")])
  /\ Index.getInstalledSteamAppsSync mixedBox (Some "/nowhere")
     = (Returns [],
        [Probe (path_join mixedBox ["/nowhere"; "steamapps"]);
         Probe (vdfFile mixedBox "/nowhere")]).
Proof.
  destruct (supplied_root_is_not_checked mixedBox "440" "/nowhere")
    as (Ha & _ & Hi & _).
  - discriminate.
  - vm_compute. reflexivity.
  - vm_compute. reflexivity.
  - split; [exact Ha | exact Hi].
Defined.

(** ** Repeated folders and repeated keys *)

Section DedupFacts.
Variable h : Host.

Lemma dedup_keys_grow apps : forall st k,
  k ∈ st.2 -> k ∈ (fold_left (dedupStep h) apps st).2.
Proof.
  induction apps as [| a apps IH]; intros st k Hk; [exact Hk |].
  cbn [fold_left]. apply IH. unfold dedupStep.
  destruct (entryKey h a) as [key |]; [| exact Hk].
  destruct (decide (key ∈ st.2)); [exact Hk |]. cbn [snd]. set_solver.
Qed.

Lemma dedup_keys_seen apps : forall st a k,
  a ∈ apps -> entryKey h a = Some k -> k ∈ (fold_left (dedupStep h) apps st).2.
Proof.
  induction apps as [| b apps IH]; intros st a k Ha Hk; [inversion Ha |].
  cbn [fold_left]. apply elem_of_cons in Ha as [-> | Ha]; [| eapply IH; eassumption].
  apply dedup_keys_grow. unfold dedupStep. rewrite Hk.
  destruct (decide (k ∈ st.2)) as [Hin | _]; [exact Hin |]. cbn [snd]. set_solver.
Qed.

Lemma dedup_all_seen apps : forall st,
  (forall a k, a ∈ apps -> entryKey h a = Some k -> k ∈ st.2) ->
  fold_left (dedupStep h) apps st = st.
Proof.
  induction apps as [| a apps IH]; intros st Hseen; [reflexivity |].
  cbn [fold_left].
  assert (Hstep : dedupStep h st a = st).
  { unfold dedupStep. destruct (entryKey h a) as [key |] eqn:Ek; [| reflexivity].
    destruct (decide (key ∈ st.2)) as [_ | Hn]; [reflexivity |].
    exfalso. apply Hn. apply (Hseen a key); [apply list_elem_of_here | exact Ek]. }
  rewrite Hstep. apply IH. intros b k Hb. apply Hseen. apply list_elem_of_further, Hb.
Qed.




Lemma sightings_incl l1 l2 a :
  (forall f, f ∈ l2 -> f ∈ l1) -> a ∈ sightings h l2 -> a ∈ sightings h l1.
Proof.
  intros Hsub Ha. destruct (sightings_elem h _ _ Ha) as (folder & file & Hf & Hfile & Hs).
  unfold sightings. apply list_elem_of_In, in_flat_map.
  exists folder. split; [apply list_elem_of_In, Hsub, Hf |].
  apply list_elem_of_In, list_elem_of_omap. exists file. split; assumption.
Qed.
End DedupFacts.

(** X16.  In steam-apps.ts, library folders that already stand earlier
    in the list add nothing: the inventory of a list followed by folders
    taken from it is the inventory of the list. *)
Theorem repeated_folders_counted_once (h : Host) (folders again : list string) :
  (forall f, f ∈ again -> f ∈ folders) ->
  result (SteamApps.getInstalledSteamAppsFromLibrariesSync h (folders ++ again))
    = result (SteamApps.getInstalledSteamAppsFromLibrariesSync h folders).
Proof.
  intros Hsub. unfold SteamApps.getInstalledSteamAppsFromLibrariesSync.
  erewrite result_bind; [| apply modular_visitFolders_sightings].
  symmetry. erewrite result_bind; [| apply modular_visitFolders_sightings].
  rewrite sightings_app, fold_left_app.
  rewrite (dedup_all_seen h (sightings h again)); [reflexivity |].
  intros a k Ha Hk. eapply dedup_keys_seen; [| exact Hk].
  apply (sightings_incl h folders again a Hsub Ha).
Qed.

Lemma repeated_folders_counted_once_witness :
  result (SteamApps.getInstalledSteamAppsFromLibrariesSync mixedBox
            (["/lib"; "/nowhere"] ++ ["/lib"; "/lib"]))
    = result (SteamApps.getInstalledSteamAppsFromLibrariesSync mixedBox ["/lib"; "/nowhere"]).
Proof.
  apply (repeated_folders_counted_once mixedBox ["/lib"; "/nowhere"] ["/lib"; "/lib"]).
  intros f Hf. apply elem_of_cons in Hf as [-> | Hf]; [apply list_elem_of_here |].
  apply elem_of_cons in Hf as [-> | Hf]; [apply list_elem_of_here | inversion Hf].
Defined.


